(** * Habit tracker: statistics engine and habit service

    A shallow embedding of [app/core/models.py], [app/core/statistics.py],
    [app/db/repository.py], [app/db/in_memory.py], [app/db/sqlite.py],
    [app/core/services.py] and the habit-building part of
    [app/api/controllers.py], followed by the properties of the
    specification that concern them.

    Modelling conventions.
    - A [datetime.date] is its proleptic ordinal, an integer of [Z];
      [timedelta(days=1)] is [1].  The wall-clock [date.today()] is an
      explicit argument [today].  The bounds [date.min] and [date.max]
      are not modelled.
    - A [float] that an entry or a goal carries is the rational it
      denotes ([Q]), and the comparisons of such floats are those of the
      rationals; infinities and NaN as values of entries are not
      modelled.  The arithmetic on them, [sum(values) / len(values)],
      is the one of IEEE 754 binary64, with its rounding, its overflow
      to infinity and its NaN (module [float]).  A quotient of two
      counters ([completion_rate]) is the rational it rounds.
    - A [str] is a [string]; a [dict] keyed by [str] is a [gmap string];
      a [set] of dates is a [gset Z].
    - Counters ([int] values that only ever count) are [nat]. *)

From Stdlib Require Import ZArith QArith Lia SpecFloat.
From stdpp Require Import gmap strings list sorting.

Local Open Scope string_scope.
Local Open Scope list_scope.
Local Open Scope nat_scope.

(** ** [app/core/models.py] *)

Inductive HabitType := BOOLEAN | NUMERIC.

#[global] Instance HabitType_eq_dec : EqDecision HabitType.
Proof. solve_decision. Defined.

Module LogEntry.
Record t := mk {
  id : string;
  habit_id : string;
  date : Z;
  value : option Q;
  created_at : Z
}.

(** [LogEntry.create]; the fresh uuid and the clock reading are
    supplied by the caller of the model. *)
Definition create (uuid : string) (now : Z)
    (habit_id : string) (date_ : Z) (value : option Q) : t :=
  mk uuid habit_id date_ value now.
End LogEntry.

Module Habit.
Record t := mk {
  id : string;
  name : string;
  description : option string;
  category : option string;
  type : HabitType;
  goal : option Q;
  created_at : Z;
  parent_id : option string;
  subhabit_ids : list string
}.

Definition set_name (v : string) (h : t) : t :=
  mk (id h) v (description h) (category h) (type h) (goal h)
     (created_at h) (parent_id h) (subhabit_ids h).
Definition set_description (v : option string) (h : t) : t :=
  mk (id h) (name h) v (category h) (type h) (goal h)
     (created_at h) (parent_id h) (subhabit_ids h).
Definition set_category (v : option string) (h : t) : t :=
  mk (id h) (name h) (description h) v (type h) (goal h)
     (created_at h) (parent_id h) (subhabit_ids h).
Definition set_goal (v : option Q) (h : t) : t :=
  mk (id h) (name h) (description h) (category h) (type h) v
     (created_at h) (parent_id h) (subhabit_ids h).
Definition set_parent_id (v : option string) (h : t) : t :=
  mk (id h) (name h) (description h) (category h) (type h) (goal h)
     (created_at h) v (subhabit_ids h).
Definition set_subhabit_ids (v : list string) (h : t) : t :=
  mk (id h) (name h) (description h) (category h) (type h) (goal h)
     (created_at h) (parent_id h) v.
End Habit.

(** ** Python's [float]: IEEE 754 binary64

    The operations are those of the Standard Library's executable
    specification of IEEE 754 arithmetic at 53 bits of precision, with
    round to nearest, ties to even. *)

Module float.
Definition t : Type := spec_float.

Definition prec : Z := 53.
Definition emax : Z := 1024.

Definition zero : t := S754_zero false.
Definition inf : t := S754_infinity false.

(** [x + y] and [x / y] on floats. *)
Definition add (x y : t) : t := SFadd prec emax x y.
Definition truediv (x y : t) : t := SFdiv prec emax x y.

(** [float(n)] for an [int]. *)
Definition of_int (n : Z) : t := binary_normalize prec emax n 0 false.

(** The binary64 nearest to the quotient of two positive integers. *)
Definition round_quotient (negative : bool) (n d : positive) : t :=
  let '(m, e, l) := SFdiv_core_binary prec emax (Zpos n) 0 (Zpos d) 0 in
  binary_round_aux prec emax negative m e l.

(** The float of a rational: the binary64 that denotes it when there is
    one, and otherwise the nearest one, which is what reading a literal
    gives. *)
Definition of_Q (q : Q) : t :=
  match Qnum q with
  | Z0 => zero
  | Zpos n => round_quotient false n (Qden q)
  | Zneg n => round_quotient true n (Qden q)
  end.

(** The rational a float denotes, if it is a number. *)
Definition value (x : t) : option Q :=
  match x with
  | S754_zero _ => Some 0%Q
  | S754_finite s m e =>
      let m := if s then Zneg m else Zpos m in
      Some match e with
           | Zneg k => m # (2 ^ k)
           | _ => inject_Z (m * 2 ^ e)
           end
  | S754_infinity _ | S754_nan => None
  end.
End float.

(** ** [app/core/statistics.py] *)

Record StatisticsResult := mkStatisticsResult {
  current_streak : nat;
  longest_streak : nat;
  total_completions : nat;
  completion_rate : Q;
  average_value : option float.t;
  total_days_tracked : nat
}.

(** [x > y] on floats. *)
Definition Qgt_bool (x y : Q) : bool := negb (Qle_bool x y).

Module StatisticsCalculator.

(** [_filter_logs_by_date].  A [date] object is always truthy, so
    [if start:] tests exactly whether the bound was given. *)
Definition _filter_logs_by_date
    (logs : list LogEntry.t) (start end_ : option Z) : list LogEntry.t :=
  let filtered := logs in
  let filtered :=
    match start with
    | Some s => filter (λ log, (LogEntry.date log >= s)%Z) filtered
    | None => filtered
    end in
  let filtered :=
    match end_ with
    | Some e => filter (λ log, (LogEntry.date log <= e)%Z) filtered
    | None => filtered
    end in
  filtered.

(** The [while cursor in completed_dates] loop.  Every iteration that
    passes the test consumes a distinct member of the finite set, so
    [S (size completed_dates)] units of fuel are never used up
    (lemma [walk_back_exits] below). *)
Fixpoint walk_back (fuel : nat) (completed_dates : gset Z)
    (cursor : Z) (current_streak : nat) : nat :=
  match fuel with
  | O => current_streak
  | S fuel' =>
      if decide (cursor ∈ completed_dates)
      then walk_back fuel' completed_dates (cursor - 1)%Z (current_streak + 1)
      else current_streak
  end.

(** One iteration of [for i in range(len(sorted_dates))]; the loop
    state is [(current, longest_streak)]. *)
Definition streak_step (sorted_dates : list Z)
    (st : nat * nat) (i : nat) : nat * nat :=
  let '(current, longest) := st in
  let current :=
    if (i =? 0)%nat then 1
    else
      let diff := (sorted_dates !!! i - sorted_dates !!! (i - 1)%nat)%Z in
      if (diff =? 1)%Z then current + 1 else 1 in
  (current, longest `max` current).

Definition _calculate_streaks (today : Z) (completed_dates : gset Z)
    : nat * nat :=
  if decide (completed_dates = ∅) then (0, 0)
  else
    let sorted_dates := merge_sort Z.le (elements completed_dates) in
    let current_streak :=
      walk_back (S (size completed_dates)) completed_dates today 0 in
    let '(_, longest_streak) :=
      foldl (streak_step sorted_dates) (0, 0)
            (seq 0 (length sorted_dates)) in
    (current_streak, longest_streak).

Definition rate (total_completions total_days : nat) : Q :=
  if (0 <? total_days)%nat
  then inject_Z (Z.of_nat total_completions) / inject_Z (Z.of_nat total_days)
  else 0.

Definition len_or_zero (filtered_logs : list LogEntry.t) : nat :=
  match filtered_logs with
  | [] => 0
  | _ => length filtered_logs
  end.

End StatisticsCalculator.

Module BooleanStatisticsCalculator.
Import StatisticsCalculator.

(** Body of the loop filling [completed_dates]. *)
Definition collect (completed_dates : gset Z) (log : LogEntry.t) : gset Z :=
  match LogEntry.value log with
  | Some v =>
      if Qle_bool 1 v then {[ LogEntry.date log ]} ∪ completed_dates
      else completed_dates
  | None => completed_dates
  end.

(** The value of [completed_dates] when the loop is over. *)
Definition completed (filtered_logs : list LogEntry.t) : gset Z :=
  foldl collect ∅ filtered_logs.

Definition calculate (today : Z) (habit : Habit.t) (logs : list LogEntry.t)
    (start end_ : option Z) : StatisticsResult :=
  let filtered_logs := _filter_logs_by_date logs start end_ in
  let completed_dates := completed filtered_logs in
  let '(current_streak, longest_streak) :=
    _calculate_streaks today completed_dates in
  let total_completions := size completed_dates in
  let total_days := len_or_zero filtered_logs in
  let completion_rate := rate total_completions total_days in
  mkStatisticsResult current_streak longest_streak total_completions
    completion_rate None total_days.
End BooleanStatisticsCalculator.

Module NumericStatisticsCalculator.
Import StatisticsCalculator.

(** Body of the loop; the state is [(completed_dates, values)]. *)
Definition collect (goal : option Q)
    (st : gset Z * list Q) (log : LogEntry.t) : gset Z * list Q :=
  let '(completed_dates, values) := st in
  match LogEntry.value log with
  | Some v =>
      let values := values ++ [v] in
      match goal with
      | Some g =>
          if Qle_bool g v
          then ({[ LogEntry.date log ]} ∪ completed_dates, values)
          else (completed_dates, values)
      | None =>
          if Qgt_bool v 0
          then ({[ LogEntry.date log ]} ∪ completed_dates, values)
          else (completed_dates, values)
      end
  | None => (completed_dates, values)
  end.

(** The values of [completed_dates] and [values] when the loop is over. *)
Definition scan (goal : option Q) (filtered_logs : list LogEntry.t)
    : gset Z * list Q :=
  foldl (collect goal) (∅, []) filtered_logs.

(** [sum(values)] on floats: the additions are made from left to right,
    starting from [0], each rounded to binary64.  (From Python 3.12 on
    [sum] also carries a compensation term for the rounding errors of
    finite partial sums; an overflow is the same there.) *)
Definition sum (values : list Q) : float.t :=
  foldl (λ total v, float.add total (float.of_Q v)) (float.of_int 0) values.

Definition calculate (today : Z) (habit : Habit.t) (logs : list LogEntry.t)
    (start end_ : option Z) : StatisticsResult :=
  let filtered_logs := _filter_logs_by_date logs start end_ in
  let '(completed_dates, values) := scan (Habit.goal habit) filtered_logs in
  let '(current_streak, longest_streak) :=
    _calculate_streaks today completed_dates in
  let total_completions := size completed_dates in
  let total_days := len_or_zero filtered_logs in
  let completion_rate := rate total_completions total_days in
  let average_value :=
    match values with
    | [] => None
    | _ => Some (float.truediv (sum values)
                   (float.of_int (Z.of_nat (length values))))
    end in
  mkStatisticsResult current_streak longest_streak total_completions
    completion_rate average_value total_days.
End NumericStatisticsCalculator.

(** ** Exceptions and the state-and-exception monad

    A service call runs against the repositories and either returns a
    value or raises; a raised exception does not undo the writes made
    before it. *)

Inductive exn :=
| ValueError (msg : string)
| KeyError (msg : string)
| IntegrityError
| RecursionError
| HTTPException (status_code : nat) (detail : string).

Inductive result (A : Type) :=
| Ok (a : A)
| Raise (e : exn).
Arguments Ok {A} a.
Arguments Raise {A} e.

Definition M (S A : Type) : Type := S → result A * S.

Definition ret {S A} (a : A) : M S A := λ s, (Ok a, s).

#[global] Instance M_ret {S} : MRet (M S) := λ A, ret.
#[global] Instance M_bind {S} : MBind (M S) := λ A B k m s,
  match m s with
  | (Ok a, s') => k a s'
  | (Raise e, s') => (Raise e, s')
  end.

Definition raise {S A} (e : exn) : M S A := λ s, (Raise e, s).

(** [for x in xs: body(x)] *)
Fixpoint for_each {S A} (body : A → M S ()) (xs : list A) : M S () :=
  match xs with
  | [] => mret ()
  | x :: xs' => body x ≫= λ _, for_each body xs'
  end.

(** [StatisticsCalculatorFactory]: the class attribute [_calculators]
    is a table from habit type to calculator; its current value is an
    argument of whoever consults it. *)
Module StatisticsCalculatorFactory.
Definition calculator : Type :=
  Z → Habit.t → list LogEntry.t → option Z → option Z → StatisticsResult.

Definition _calculators (habit_type : HabitType) : option calculator :=
  match habit_type with
  | BOOLEAN => Some BooleanStatisticsCalculator.calculate
  | NUMERIC => Some NumericStatisticsCalculator.calculate
  end.

(** [f"{habit_type}"]: a member of an [Enum] is formatted by its
    [__str__], class name and member name, also when the class mixes
    in [str]. *)
Definition format_habit_type (habit_type : HabitType) : string :=
  match habit_type with
  | BOOLEAN => "HabitType.BOOLEAN"
  | NUMERIC => "HabitType.NUMERIC"
  end.

Definition get_calculator (table : HabitType → option calculator)
    (habit_type : HabitType) : result calculator :=
  match table habit_type with
  | None =>
      Raise (ValueError ("No calculator found for habit type: " ++
                         format_habit_type habit_type)%string)
  | Some c => Ok c
  end.

Definition register_calculator (table : HabitType → option calculator)
    (habit_type : HabitType) (c : calculator)
    : HabitType → option calculator :=
  λ t, if decide (t = habit_type) then Some c else table t.
End StatisticsCalculatorFactory.

(** ** [app/db/repository.py]: the two protocols

    [habit_assign k h] is the effect on the repository of assigning to
    the attributes of the object that [habit_get k] handed out, leaving
    it equal to [h]: a repository that hands out the stored object
    itself sees the assignment at once, one that hands out a copy does
    not see it. *)

Class HabitRepository (R : Type) := {
  habit_add : Habit.t → M R ();
  habit_get : string → R → option Habit.t;
  habit_list : R → list Habit.t;
  habit_update : Habit.t → M R ();
  habit_delete : string → R → R;
  habit_assign : string → Habit.t → R → R
}.

Class LogRepository (L : Type) := {
  log_add : LogEntry.t → M L ();
  log_list_for_habit : string → option Z → option Z → L → list LogEntry.t;
  log_list_all : L → list LogEntry.t
}.

(** ** [app/db/in_memory.py] *)

Module InMemoryHabitRepository.
Abbreviation storage := (gmap string Habit.t).

Definition add (habit : Habit.t) : M storage () :=
  λ s, (Ok (), <[Habit.id habit := habit]> s).

Definition get (habit_id : string) (s : storage) : option Habit.t :=
  s !! habit_id.

Definition update (habit : Habit.t) : M storage () :=
  λ s, match s !! Habit.id habit with
       | None => (Raise (KeyError "Habit not found"), s)
       | Some _ => (Ok (), <[Habit.id habit := habit]> s)
       end.

Definition delete (habit_id : string) (s : storage) : storage :=
  base.delete habit_id s.

(** [list(self._storage.values())]; the insertion order of the
    dictionary is not tracked. *)
Definition list (s : storage) : Datatypes.list Habit.t :=
  (map_to_list s).*2.

(** [get] returns the stored object, so assignments to it are
    assignments to the entry of the dictionary. *)
Definition assign (habit_id : string) (habit : Habit.t) (s : storage)
    : storage :=
  <[habit_id := habit]> s.
End InMemoryHabitRepository.

#[global] Instance InMemoryHabitRepository_inst
    : HabitRepository (gmap string Habit.t) := {
  habit_add := InMemoryHabitRepository.add;
  habit_get := InMemoryHabitRepository.get;
  habit_list := InMemoryHabitRepository.list;
  habit_update := InMemoryHabitRepository.update;
  habit_delete := InMemoryHabitRepository.delete;
  habit_assign := InMemoryHabitRepository.assign
}.

Module InMemoryLogRepository.
Abbreviation storage := (Datatypes.list LogEntry.t).

(** The order of [sorted(logs, key=lambda log: log.date)]. *)
Definition by_date (a b : LogEntry.t) : Prop :=
  (LogEntry.date a <= LogEntry.date b)%Z.
#[global] Instance by_date_dec a b : Decision (by_date a b).
Proof. unfold by_date. apply _. Defined.

Definition add (log : LogEntry.t) : M storage () :=
  λ s, (Ok (), s ++ [log]).

(** [sorted(logs, key=lambda log: log.date)].  The sort of Python is
    stable, and a stable sort is determined by its input: entries go by
    ascending date, those of one date in the order they had. *)
Fixpoint insert_by_date (x : LogEntry.t) (l : storage) : storage :=
  match l with
  | [] => [x]
  | y :: l' =>
      if decide (by_date x y) then x :: y :: l' else y :: insert_by_date x l'
  end.

Fixpoint sorted_by_date (l : storage) : storage :=
  match l with
  | [] => []
  | x :: l' => insert_by_date x (sorted_by_date l')
  end.

Definition list_for_habit (habit_id : string) (start end_ : option Z)
    (s : storage) : storage :=
  let logs := filter (λ log, LogEntry.habit_id log = habit_id) s in
  let logs :=
    match start with
    | Some st => filter (λ log, (LogEntry.date log >= st)%Z) logs
    | None => logs
    end in
  let logs :=
    match end_ with
    | Some e => filter (λ log, (LogEntry.date log <= e)%Z) logs
    | None => logs
    end in
  sorted_by_date logs.

Definition list_all (s : storage) : storage := s.
End InMemoryLogRepository.

#[global] Instance InMemoryLogRepository_inst
    : LogRepository (list LogEntry.t) := {
  log_add := InMemoryLogRepository.add;
  log_list_for_habit := InMemoryLogRepository.list_for_habit;
  log_list_all := InMemoryLogRepository.list_all
}.

(** ** [app/db/sqlite.py], the habits table

    A row is the tuple of the nine columns, held as a [Habit.t]; the
    table maps the primary key [id] to its row.  The text encodings of
    the columns ([type.value], [isoformat], [json.dumps]) are inverted
    by [_habit_from_row] and left out. *)

Module SQLiteHabitRepository.
Abbreviation table := (gmap string Habit.t).

(** [INSERT]: a second row with the same primary key is refused. *)
Definition add (habit : Habit.t) : M table () :=
  λ s, match s !! Habit.id habit with
       | Some _ => (Raise IntegrityError, s)
       | None => (Ok (), <[Habit.id habit := habit]> s)
       end.

Definition get (habit_id : string) (s : table) : option Habit.t :=
  s !! habit_id.

(** [UPDATE habits SET name, description, category, goal,
    subhabit_ids WHERE id = ?] *)
Definition update (habit : Habit.t) : M table () :=
  λ s, match s !! Habit.id habit with
       | None => (Raise (KeyError "Habit not found"), s)
       | Some row =>
           let row :=
             Habit.set_subhabit_ids (Habit.subhabit_ids habit)
               (Habit.set_goal (Habit.goal habit)
                 (Habit.set_category (Habit.category habit)
                   (Habit.set_description (Habit.description habit)
                     (Habit.set_name (Habit.name habit) row)))) in
           (Ok (), <[Habit.id habit := row]> s)
       end.

Definition delete (habit_id : string) (s : table) : table :=
  base.delete habit_id s.

Definition list (s : table) : Datatypes.list Habit.t :=
  (map_to_list s).*2.

(** [get] builds a new object from the row. *)
Definition assign (habit_id : string) (habit : Habit.t) (s : table)
    : table := s.

Definition inst : HabitRepository table := {|
  habit_add := add;
  habit_get := get;
  habit_list := list;
  habit_update := update;
  habit_delete := delete;
  habit_assign := assign
|}.
End SQLiteHabitRepository.

(** ** [app/api/schemas.py] *)

Module HabitCreate.
Record t := mk {
  name : string;
  description : option string;
  category : option string;
  type : HabitType;
  goal : option Q;
  parent_id : option string
}.
End HabitCreate.

Module HabitUpdate.
Record t := mk {
  name : option string;
  description : option string;
  category : option string;
  goal : option Q
}.
End HabitUpdate.

(** ** [app/core/services.py] *)

Record HabitService (R L : Type) := mkHabitService {
  habit_repo : R;
  log_repo : L
}.
Arguments mkHabitService {R L} _ _.
Arguments habit_repo {R L} _.
Arguments log_repo {R L} _.

Section Service.
Context {R L : Type} `{!HabitRepository R, !LogRepository L}.

(** Run a call of the habit repository, or of the log repository,
    inside the service. *)
Definition on_habits {A} (m : M R A) : M (HabitService R L) A :=
  λ s, let '(r, hs) := m (habit_repo s) in (r, mkHabitService hs (log_repo s)).

Definition on_logs {A} (m : M L A) : M (HabitService R L) A :=
  λ s, let '(r, ls) := m (log_repo s) in (r, mkHabitService (habit_repo s) ls).

Definition create_habit (habit : Habit.t) : M (HabitService R L) () :=
  on_habits (habit_add habit).

Definition get_habit (habit_id : string) (s : HabitService R L)
    : option Habit.t :=
  habit_get habit_id (habit_repo s).

Definition list_habits (s : HabitService R L) : list Habit.t :=
  habit_list (habit_repo s).

(** The four guarded assignments of [update_habit]. *)
Definition apply_update (update : HabitUpdate.t) (habit : Habit.t) : Habit.t :=
  let habit :=
    match HabitUpdate.name update with
    | Some v => Habit.set_name v habit
    | None => habit
    end in
  let habit :=
    match HabitUpdate.description update with
    | Some v => Habit.set_description (Some v) habit
    | None => habit
    end in
  let habit :=
    match HabitUpdate.category update with
    | Some v => Habit.set_category (Some v) habit
    | None => habit
    end in
  let habit :=
    match HabitUpdate.goal update with
    | Some v => Habit.set_goal (Some v) habit
    | None => habit
    end in
  habit.

Definition update_habit (habit_id : string) (update : HabitUpdate.t)
    : M (HabitService R L) Habit.t :=
  λ s,
    match habit_get habit_id (habit_repo s) with
    | None => raise (ValueError "Habit not found") s
    | Some habit =>
        let habit := apply_update update habit in
        (on_habits (λ r, (Ok (), habit_assign habit_id habit r)) ≫= λ _,
         on_habits (habit_update habit) ≫= λ _,
         mret habit) s
    end.

(** [delete_habit] calls itself for every sub-habit and has no guard
    against cycles; [fuel] is the number of nested calls the interpreter
    still allows, and entering one more raises [RecursionError]. *)
Fixpoint delete_habit (fuel : nat) (habit_id : string)
    : M (HabitService R L) () :=
  match fuel with
  | O => raise RecursionError
  | S fuel' =>
      λ s,
        match habit_get habit_id (habit_repo s) with
        | None => raise (ValueError "Habit not found") s
        | Some habit =>
            (for_each (delete_habit fuel') (Habit.subhabit_ids habit) ≫= λ _,
             on_habits (λ r, (Ok (), habit_delete habit_id r))) s
        end
  end.

Definition add_subhabit (parent_id : string) (subhabit : Habit.t)
    : M (HabitService R L) () :=
  λ s,
    match habit_get parent_id (habit_repo s) with
    | None => raise (ValueError "Parent habit not found") s
    | Some parent =>
        let subhabit := Habit.set_parent_id (Some parent_id) subhabit in
        let parent :=
          Habit.set_subhabit_ids
            (Habit.subhabit_ids parent ++ [Habit.id subhabit]) parent in
        (on_habits (λ r, (Ok (), habit_assign parent_id parent r)) ≫= λ _,
         on_habits (habit_add subhabit) ≫= λ _,
         on_habits (habit_update parent)) s
    end.

Definition record_log (uuid : string) (now : Z)
    (habit_id : string) (date_ : Z) (value : option Q)
    : M (HabitService R L) LogEntry.t :=
  λ s,
    match habit_get habit_id (habit_repo s) with
    | None => raise (ValueError "Habit not found") s
    | Some habit =>
        let log := LogEntry.create uuid now habit_id date_ value in
        (on_logs (log_add log) ≫= λ _, mret log) s
    end.

Definition get_logs (habit_id : string) (start end_ : option Z)
    : M (HabitService R L) (list LogEntry.t) :=
  λ s,
    match habit_get habit_id (habit_repo s) with
    | None => raise (ValueError "Habit not found") s
    | Some habit =>
        ret (log_list_for_habit habit_id start end_ (log_repo s)) s
    end.

(** The returned dictionary is the habit id paired with the six fields
    of the result. *)
Definition get_statistics
    (table : HabitType → option StatisticsCalculatorFactory.calculator)
    (today : Z) (habit_id : string) (start end_ : option Z)
    : M (HabitService R L) (string * StatisticsResult) :=
  λ s,
    match habit_get habit_id (habit_repo s) with
    | None => raise (ValueError "Habit not found") s
    | Some habit =>
        let logs := log_list_for_habit habit_id start end_ (log_repo s) in
        match StatisticsCalculatorFactory.get_calculator table
                (Habit.type habit) with
        | Raise e => raise e s
        | Ok calculator =>
            let result := calculator today habit logs start end_ in
            ret (habit_id, result) s
        end
    end.

End Service.

(** ** [app/api/controllers.py]

    [uuid] stands for [str(uuid.uuid4())] and [now] for the default of
    [created_at].  An endpoint returns the object it answers with; the
    response models of [schemas.py] are projections of it. *)

Module controllers.
Section Controllers.
Context {R L : Type} `{!HabitRepository R, !LogRepository L}.

(** [try: ... except ValueError as e: raise HTTPException(404, str(e))] *)
Definition except_ValueError {A} (m : M (HabitService R L) A)
    : M (HabitService R L) A :=
  λ s,
    match m s with
    | (Raise (ValueError msg), s') => (Raise (HTTPException 404 msg), s')
    | other => other
    end.

Definition create_habit (uuid : string) (now : Z) (payload : HabitCreate.t)
    : M (HabitService R L) Habit.t :=
  let habit :=
    Habit.mk uuid (HabitCreate.name payload) (HabitCreate.description payload)
      (HabitCreate.category payload) (HabitCreate.type payload)
      (HabitCreate.goal payload) now (HabitCreate.parent_id payload) [] in
  create_habit habit ≫= λ _, mret habit.

Definition get_habit (habit_id : string) : M (HabitService R L) Habit.t :=
  λ s,
    match get_habit habit_id s with
    | None => raise (HTTPException 404 "Habit not found") s
    | Some habit => ret habit s
    end.

Definition update_habit (habit_id : string) (payload : HabitUpdate.t)
    : M (HabitService R L) Habit.t :=
  except_ValueError (update_habit habit_id payload).

Definition delete_habit (fuel : nat) (habit_id : string)
    : M (HabitService R L) () :=
  except_ValueError (delete_habit fuel habit_id).

Definition add_subhabit (uuid : string) (now : Z)
    (habit_id : string) (payload : HabitCreate.t)
    : M (HabitService R L) Habit.t :=
  let sub :=
    Habit.mk uuid (HabitCreate.name payload) (HabitCreate.description payload)
      (HabitCreate.category payload) (HabitCreate.type payload)
      (HabitCreate.goal payload) now (Some habit_id) [] in
  except_ValueError
    (add_subhabit habit_id sub ≫= λ _,
     mret (Habit.set_parent_id (Some habit_id) sub)).

Definition list_habits : M (HabitService R L) (list Habit.t) :=
  λ s, ret (list_habits s) s.

Definition record_log (uuid : string) (now : Z)
    (habit_id : string) (date_ : Z) (value : option Q)
    : M (HabitService R L) LogEntry.t :=
  except_ValueError (record_log uuid now habit_id date_ value).

Definition get_logs (habit_id : string) (start end_ : option Z)
    : M (HabitService R L) (list LogEntry.t) :=
  except_ValueError (get_logs habit_id start end_).

Definition get_stats
    (table : HabitType → option StatisticsCalculatorFactory.calculator)
    (today : Z) (habit_id : string) (start end_ : option Z)
    : M (HabitService R L) (string * StatisticsResult) :=
  except_ValueError (get_statistics table today habit_id start end_).

End Controllers.
End controllers.

(** * Vocabulary of the specification *)

Import StatisticsCalculator.

(** ** The date window and the completion rule *)

(** The optional inclusive window of the specification. *)
Definition in_window (start end_ : option Z) (d : Z) : Prop :=
  match start with Some s => (s <= d)%Z | None => True end ∧
  match end_ with Some e => (d <= e)%Z | None => True end.

(** The completion rule of the specification, by habit type and goal. *)
Definition completes (ty : HabitType) (goal : option Q) (log : LogEntry.t)
    : Prop :=
  match LogEntry.value log with
  | None => False
  | Some v =>
      match ty, goal with
      | BOOLEAN, _ => (1 <= v)%Q
      | NUMERIC, Some g => (g <= v)%Q
      | NUMERIC, None => (0 < v)%Q
      end
  end.

(** ** Runs of consecutive dates and the scan *)

(** [run X d k]: the [k] consecutive calendar dates from [d] on are all
    in [X]. *)
Definition run (X : gset Z) (d : Z) (k : nat) : Prop :=
  ∀ i : nat, i < k → (d + Z.of_nat i)%Z ∈ X.

(** The scan of the specification over the ascending list: extend the
    running counter on a gap of one day, reset it to 1 otherwise, and
    keep the running maximum.  The state is [(current, longest)]. *)
Fixpoint scan_runs (prev : Z) (st : nat * nat) (rest : list Z) : nat * nat :=
  match rest with
  | [] => st
  | d :: rest' =>
      let current := if (d - prev =? 1)%Z then st.1 + 1 else 1 in
      scan_runs d (current, st.2 `max` current) rest'
  end.

Definition spec_longest_streak (sorted_dates : list Z) : nat :=
  match sorted_dates with
  | [] => 0
  | d :: rest => (scan_runs d (1, 1) rest).2
  end.

(** Invariant of the scan after the dates of [T] have been read, the
    last of them being [prev]: [current] is the exact length of the run
    that ends at [prev], and [longest] is the length of a longest run
    of [T]. *)
Record scan_inv (T : gset Z) (prev : Z) (st : nat * nat) : Prop := {
  inv_run : ∀ i : nat, i < st.1 → (prev - Z.of_nat i)%Z ∈ T;
  inv_stop : (prev - Z.of_nat st.1)%Z ∉ T;
  inv_pos : 1 ≤ st.1;
  inv_le : st.1 ≤ st.2;
  inv_wit : ∃ d, run T d st.2;
  inv_max : ∀ d k, run T d k → k ≤ st.2;
  inv_top : ∀ x, x ∈ T → (x ≤ prev)%Z
}.

(** ** The service over the in-memory repositories

    [main.py] builds the service over the in-memory repositories unless
    told otherwise. *)

Abbreviation store := (HabitService (gmap string Habit.t) (list LogEntry.t)).

Definition not_found : exn := ValueError "Habit not found".

(** [s'] comes from [s] by deleting habits and nothing else. *)
Definition shrinks (s s' : store) : Prop :=
  habit_repo s' ⊆ habit_repo s ∧ log_repo s' = log_repo s.

(** Both repositories file every habit under its own id. *)
Definition keyed_by_id (m : gmap string Habit.t) : Prop :=
  map_Forall (λ k h, Habit.id h = k) m.

(** What an update request does to a habit, field by field. *)
Definition updated_by (update : HabitUpdate.t) (old new : Habit.t) : Prop :=
  Habit.name new = default (Habit.name old) (HabitUpdate.name update) ∧
  Habit.description new =
    match HabitUpdate.description update with
    | Some v => Some v
    | None => Habit.description old
    end ∧
  Habit.category new =
    match HabitUpdate.category update with
    | Some v => Some v
    | None => Habit.category old
    end ∧
  Habit.goal new =
    match HabitUpdate.goal update with
    | Some v => Some v
    | None => Habit.goal old
    end ∧
  Habit.id new = Habit.id old ∧
  Habit.type new = Habit.type old ∧
  Habit.created_at new = Habit.created_at old ∧
  Habit.parent_id new = Habit.parent_id old ∧
  Habit.subhabit_ids new = Habit.subhabit_ids old.

(** ** The stores the API can reach *)

Definition empty_store : store := mkHabitService ∅ [].

(** The store a call leaves behind. *)
Definition exec {A} (m : M store A) (s : store) : store := (m s).2.

(** One request among create, add-subhabit, update and delete.  The
    uuid drawn for a new habit is not the id of a stored habit. *)
Inductive api_step : store → store → Prop :=
| step_create uuid now payload s :
    habit_repo s !! uuid = None →
    api_step s (exec (controllers.create_habit uuid now payload) s)
| step_add_subhabit uuid now habit_id payload s :
    habit_repo s !! uuid = None →
    api_step s (exec (controllers.add_subhabit uuid now habit_id payload) s)
| step_update habit_id payload s :
    api_step s (exec (controllers.update_habit habit_id payload) s)
| step_delete fuel habit_id s :
    api_step s (exec (controllers.delete_habit fuel habit_id) s).

Definition api_reachable (s : store) : Prop := rtc api_step empty_store s.

(** The two halves of the linkage invariant of the specification. *)
Definition parents_exist (m : gmap string Habit.t) : Prop :=
  ∀ k h p, m !! k = Some h → Habit.parent_id h = Some p → is_Some (m !! p).

Definition subhabits_linked (m : gmap string Habit.t) : Prop :=
  ∀ k h c, m !! k = Some h → c ∈ Habit.subhabit_ids h →
           ∃ hc, m !! c = Some hc ∧ Habit.parent_id hc = Some (Habit.id h).

(** C6 as it is stated, for one store, call depth and habit: whenever
    the habit has one sub-habit, the delete leaves neither of them. *)
Definition C6_as_stated (s : store) (fuel : nat) (parent_id : string) : Prop :=
  ∀ parent child_id child,
    habit_repo s !! parent_id = Some parent →
    Habit.subhabit_ids parent = [child_id] →
    habit_repo s !! child_id = Some child →
    get_habit parent_id (delete_habit fuel parent_id s).2 = None ∧
    get_habit child_id (delete_habit fuel parent_id s).2 = None.

(** C10 as it is stated, for one store, call depth and habit. *)
Definition C10_as_stated (s : store) (fuel : nat) (habit_id : string) : Prop :=
  ∀ habit pre ghost post,
    habit_repo s !! habit_id = Some habit →
    Habit.subhabit_ids habit = pre ++ ghost :: post →
    habit_repo s !! ghost = None →
    (delete_habit fuel habit_id s).1 = Raise not_found ∧
    (∀ c, c ∈ pre → habit_repo (delete_habit fuel habit_id s).2 !! c = None) ∧
    habit_repo (delete_habit fuel habit_id s).2 !! habit_id = Some habit.

(** ** Concrete habits, logs and stores *)

(** The scenario the specification offers against
    [longest_streak ≥ current_streak]: a boolean habit completed on five
    consecutive days, the last of them two days before today, and
    nothing since. *)
Definition historical_habit : Habit.t :=
  Habit.mk "h" "Exercise" None None BOOLEAN None 0 None [].

Definition historical_today : Z := 738000.

Definition historical_logs : list LogEntry.t :=
  (λ i : nat,
     LogEntry.mk "l" "h" (historical_today - 6 + Z.of_nat i)%Z (Some 1%Q) 0)
  <$> seq 0 5.

Definition payload (name : string) (parent_id : option string)
    : HabitCreate.t :=
  HabitCreate.mk name None None BOOLEAN None parent_id.

(** [POST /habits] with a [parent_id] that names no habit. *)
Definition orphan_store : store :=
  exec (controllers.create_habit "a" 0 (payload "Orphan" (Some "ghost")))
    empty_store.

(** [POST /habits], [POST /habits/p/subhabits]: a parent and its leaf. *)
Definition family_store : store :=
  exec (controllers.add_subhabit "c" 0 "p" (payload "Child" None))
    (exec (controllers.create_habit "p" 0 (payload "Parent" None))
       empty_store).

(** ... then [DELETE /habits/c]. *)
Definition widowed_store : store :=
  exec (controllers.delete_habit 1000 "c") family_store.

(** A habit [h] with sub-habits [a] and [g], where [a] has a sub-habit
    [g2]; then [g2] and [g] are deleted. *)
Definition stranded_store : store :=
  exec (controllers.delete_habit 1000 "g")
    (exec (controllers.delete_habit 1000 "g2")
       (exec (controllers.add_subhabit "g2" 0 "a" (payload "G2" None))
          (exec (controllers.add_subhabit "g" 0 "h" (payload "G" None))
             (exec (controllers.add_subhabit "a" 0 "h" (payload "A" None))
                (exec (controllers.create_habit "h" 0 (payload "H" None))
                   empty_store))))).

(** The parent [p], its sub-habit [c] and a sub-habit [g] of [c];
    then [DELETE /habits/g]. *)
Definition bereaved_store : store :=
  exec (controllers.delete_habit 1000 "g")
    (exec (controllers.add_subhabit "g" 0 "c" (payload "Grandchild" None))
       family_store).

Definition family_parent : Habit.t :=
  Habit.mk "p" "Parent" None None BOOLEAN None 0 None ["c"].

Definition family_child : Habit.t :=
  Habit.mk "c" "Child" None None BOOLEAN None 0 (Some "p") [].

(** A parent [h] with a leaf [a] and a sub-habit [g] that was deleted on
    its own. *)
Definition dangling_store : store :=
  exec (controllers.delete_habit 1000 "g")
    (exec (controllers.add_subhabit "g" 0 "h" (payload "G" None))
       (exec (controllers.add_subhabit "a" 0 "h" (payload "A" None))
          (exec (controllers.create_habit "h" 0 (payload "H" None))
             empty_store))).

Definition dangling_parent : Habit.t :=
  Habit.mk "h" "H" None None BOOLEAN None 0 None ["a"; "g"].

Definition rename : HabitUpdate.t :=
  HabitUpdate.mk (Some "Updated") None None None.

(** ** Further vocabulary *)

#[global] Instance in_window_dec start end_ d :
  Decision (in_window start end_ d).
Proof. unfold in_window. destruct start, end_; apply _. Defined.

(** The dates of a set moved by [k] days. *)
Definition shift_dates (k : Z) (X : gset Z) : gset Z :=
  set_map (λ d, (d + k)%Z) X.

(** Two results that agree in every field but, possibly, the value of
    an average that both have. *)
Definition same_counts (r r' : StatisticsResult) : Prop :=
  current_streak r = current_streak r' ∧
  longest_streak r = longest_streak r' ∧
  total_completions r = total_completions r' ∧
  total_days_tracked r = total_days_tracked r' ∧
  completion_rate r = completion_rate r' ∧
  (average_value r = None ↔ average_value r' = None).



(** The chain of bounds between the counts of a result. *)
Definition counts_ordered (r : StatisticsResult) (logs : list LogEntry.t)
    : Prop :=
  current_streak r ≤ longest_streak r ∧
  longest_streak r ≤ total_completions r ∧
  total_completions r ≤ total_days_tracked r ∧
  total_days_tracked r ≤ length logs.

Definition no_statistics : StatisticsResult :=
  mkStatisticsResult 0 0 0 0 None 0.

(** [r'] counts no more than [r] over the same tracked entries. *)
Definition fewer_completions (r' r : StatisticsResult) : Prop :=
  current_streak r' ≤ current_streak r ∧
  longest_streak r' ≤ longest_streak r ∧
  total_completions r' ≤ total_completions r ∧
  (completion_rate r' <= completion_rate r)%Q ∧
  total_days_tracked r' = total_days_tracked r ∧
  average_value r' = average_value r.

(** The entries of one habit inside a window. *)
Definition own_entry (habit_id : string) (start end_ : option Z)
    (log : LogEntry.t) : Prop :=
  LogEntry.habit_id log = habit_id ∧ in_window start end_ (LogEntry.date log).

#[global] Instance own_entry_dec habit_id start end_ log :
  Decision (own_entry habit_id start end_ log).
Proof. unfold own_entry. apply _. Defined.

(** ** Trees and cycles of sub-habits *)

(** A habit with the trees of its sub-habits, in the order it lists
    them. *)
#[local] Unset Elimination Schemes.
Inductive tree := Node (habit : Habit.t) (children : list tree).
#[local] Set Elimination Schemes.

Definition root_id (t : tree) : string :=
  match t with Node habit _ => Habit.id habit end.

Fixpoint tree_ids (t : tree) : list string :=
  match t with
  | Node habit children => Habit.id habit :: mjoin (tree_ids <$> children)
  end.

Fixpoint height (t : tree) : nat :=
  match t with
  | Node _ children => S (foldr max 0 (height <$> children))
  end.

(** The store holds the tree: every node is the habit filed under its
    id, and its [subhabit_ids] are the ids of its children. *)
Fixpoint holds (m : gmap string Habit.t) (t : tree) : Prop :=
  match t with
  | Node habit children =>
      m !! Habit.id habit = Some habit ∧
      Habit.subhabit_ids habit = root_id <$> children ∧
      (fix all (ts : list tree) : Prop :=
         match ts with
         | [] => True
         | t' :: ts' => holds m t' ∧ all ts'
         end) children
  end.

(** A set of ids in which every habit lists first a habit of the set:
    following first sub-habits never leaves it. *)
Definition first_child_closed (m : gmap string Habit.t) (ids : gset string)
    : Prop :=
  ∀ c, c ∈ ids →
       ∃ habit y rest,
         m !! c = Some habit ∧ Habit.subhabit_ids habit = y :: rest ∧ y ∈ ids.

Definition empty_update : HabitUpdate.t := HabitUpdate.mk None None None None.

(** The answer 404 of an endpoint, from an unchanged store. *)
Definition http_404 {A S} (detail : string) (s : S) : result A * S :=
  (Raise (HTTPException 404 detail), s).

(** [s'] is [s] without the habits of [ids]. *)
Definition removed (ids : list string) (s s' : store) : Prop :=
  log_repo s' = log_repo s ∧
  ∀ k, habit_repo s' !! k =
       if decide (k ∈ ids) then None else habit_repo s !! k.

(** The parent and leaf of [family_store] as a tree. *)
Definition family_tree : tree := Node family_parent [Node family_child []].

(** A habit given to [add_subhabit] under the id of its own parent. *)
Definition loop_parent : Habit.t :=
  Habit.mk "p" "Parent" None None BOOLEAN None 0 None [].

Definition loop_child : Habit.t :=
  Habit.mk "p" "Child" None None BOOLEAN None 0 None [].

Definition loop_store : store :=
  exec (add_subhabit "p" loop_child) (exec (create_habit loop_parent) empty_store).

(** A numeric habit with goal 10 and three entries, read on the day of
    the last one. *)
Definition reading_habit : Habit.t :=
  Habit.mk "h" "Read Pages" None None NUMERIC (Some 10%Q) 0 None [].

Definition reading_logs : list LogEntry.t :=
  [ LogEntry.mk "l1" "h" historical_today (Some 15%Q) 0;
    LogEntry.mk "l2" "h" (historical_today - 1) (Some 12%Q) 0;
    LogEntry.mk "l3" "h" (historical_today - 2) (Some 5%Q) 0 ].

Definition reading_store : store :=
  exec (record_log "l3" 0 "h" (historical_today - 2) (Some 5%Q))
    (exec (record_log "l2" 0 "h" (historical_today - 1) (Some 12%Q))
       (exec (record_log "l1" 0 "h" historical_today (Some 15%Q))
          (exec (create_habit reading_habit) empty_store))).

(** The reading entries with the first two exchanged. *)
Definition reading_logs_swapped : list LogEntry.t :=
  [ LogEntry.mk "l2" "h" (historical_today - 1) (Some 12%Q) 0;
    LogEntry.mk "l1" "h" historical_today (Some 15%Q) 0;
    LogEntry.mk "l3" "h" (historical_today - 2) (Some 5%Q) 0 ].

(** The number the float [1e308] denotes. *)
Definition float_1e308 : Q := inject_Z (5010420900022432 * 2 ^ 971).

(** Two entries of the reading habit with the value [1e308] ... *)
Definition overflow_logs : list LogEntry.t :=
  [ LogEntry.mk "l1" "h" historical_today (Some float_1e308) 0;
    LogEntry.mk "l2" "h" (historical_today - 1) (Some float_1e308) 0 ].

(** ... and one with the value [-1e308]. *)
Definition negative_log : LogEntry.t :=
  LogEntry.mk "l3" "h" (historical_today - 2) (Some (- float_1e308)%Q) 0.

(** A table of calculators that has lost the numeric one. *)
Definition boolean_only
    : HabitType → option StatisticsCalculatorFactory.calculator :=
  λ t, match t with
       | BOOLEAN => Some BooleanStatisticsCalculator.calculate
       | NUMERIC => None
       end.

(** The store with the childless parent alone. *)
Definition parent_store : store := exec (create_habit loop_parent) empty_store.

(** ** Proof automation *)

(** Membership in a set that a loop body has just extended by one date. *)
Ltac solve_added :=
  rewrite elem_of_union, elem_of_singleton; intuition congruence.

(** A decidable fact about concrete data, by evaluation. *)
Ltac by_decision := apply (bool_decide_unpack _); vm_compute; exact I.

Ltac reach_step :=
  eapply rtc_r;
  [|first [ apply step_create; by vm_compute
          | apply step_add_subhabit; by vm_compute
          | apply step_delete
          | apply step_update ]].

(** * Properties *)

(** ** The date window and the completion rule *)

Lemma Qgt_bool_iff (x y : Q) : Qgt_bool x y = true ↔ (y < x)%Q.
Proof.
  unfold Qgt_bool. rewrite negb_true_iff. split.
  - intros H. apply Qnot_le_lt. intros Hle.
    apply Qle_bool_iff in Hle. congruence.
  - intros H. destruct (Qle_bool x y) eqn:E; [|done].
    apply Qle_bool_iff in E. exfalso. by apply (Qlt_not_le y x).
Qed.

Lemma filter_logs_spec logs start end_ log :
  log ∈ _filter_logs_by_date logs start end_ ↔
  log ∈ logs ∧ in_window start end_ (LogEntry.date log).
Proof.
  unfold _filter_logs_by_date, in_window.
  destruct start, end_; rewrite ?list_elem_of_filter; intuition lia.
Qed.

Lemma boolean_collect_elem goal log acc d :
  d ∈ BooleanStatisticsCalculator.collect acc log ↔
  d ∈ acc ∨ (LogEntry.date log = d ∧ completes BOOLEAN goal log).
Proof.
  unfold BooleanStatisticsCalculator.collect, completes.
  destruct (LogEntry.value log) as [v|]; [|tauto].
  destruct (Qle_bool 1 v) eqn:E.
  - apply Qle_bool_iff in E. solve_added.
  - assert (¬ (1 <= v)%Q) by (rewrite <- Qle_bool_iff; congruence). tauto.
Qed.

Lemma boolean_completed_foldl goal l acc d :
  d ∈ foldl BooleanStatisticsCalculator.collect acc l ↔
  d ∈ acc ∨ ∃ log, log ∈ l ∧ LogEntry.date log = d ∧ completes BOOLEAN goal log.
Proof.
  revert acc. induction l as [|x l IH]; intros acc; simpl.
  - split; [auto|]. intros [?|(log & Hin & _)]; [done|]. by inversion Hin.
  - rewrite IH, (boolean_collect_elem goal). split.
    + intros [[?|[? ?]]|(log & ? & ? & ?)]; [by left|right..].
      * exists x. split; [left|done].
      * exists log. split; [by right|done].
    + intros [?|(log & Hin & ? & ?)]; [by left; left|].
      apply elem_of_cons in Hin as [->|?]; [left; right; done|].
      right. by exists log.
Qed.

Lemma numeric_collect_fst goal st log d :
  d ∈ (NumericStatisticsCalculator.collect goal st log).1 ↔
  d ∈ st.1 ∨ (LogEntry.date log = d ∧ completes NUMERIC goal log).
Proof.
  unfold NumericStatisticsCalculator.collect, completes.
  destruct st as [acc vs]. destruct (LogEntry.value log) as [v|]; [|simpl; tauto].
  destruct goal as [g|].
  - destruct (Qle_bool g v) eqn:E; simpl.
    + apply Qle_bool_iff in E. solve_added.
    + assert (¬ (g <= v)%Q) by (rewrite <- Qle_bool_iff; congruence). tauto.
  - destruct (Qgt_bool v 0) eqn:E; simpl.
    + apply Qgt_bool_iff in E. solve_added.
    + assert (¬ (0 < v)%Q) by (rewrite <- Qgt_bool_iff; congruence). tauto.
Qed.

Lemma numeric_collect_snd goal st log :
  (NumericStatisticsCalculator.collect goal st log).2 =
  st.2 ++ match LogEntry.value log with Some v => [v] | None => [] end.
Proof.
  unfold NumericStatisticsCalculator.collect. destruct st as [acc vs].
  destruct (LogEntry.value log) as [v|]; simpl; [|by rewrite app_nil_r].
  destruct goal as [g|]; [destruct (Qle_bool g v)|destruct (Qgt_bool v 0)]; done.
Qed.

Lemma numeric_scan_foldl_fst goal l st d :
  d ∈ (foldl (NumericStatisticsCalculator.collect goal) st l).1 ↔
  d ∈ st.1 ∨ ∃ log, log ∈ l ∧ LogEntry.date log = d ∧ completes NUMERIC goal log.
Proof.
  revert st. induction l as [|x l IH]; intros st; simpl.
  - split; [auto|]. intros [?|(log & Hin & _)]; [done|]. by inversion Hin.
  - rewrite IH, numeric_collect_fst. split.
    + intros [[?|[? ?]]|(log & ? & ? & ?)]; [by left|right..].
      * exists x. split; [left|done].
      * exists log. split; [by right|done].
    + intros [?|(log & Hin & ? & ?)]; [by left; left|].
      apply elem_of_cons in Hin as [->|?]; [left; right; done|].
      right. by exists log.
Qed.

(** The values collected by the numeric loop are the non-null values of
    the entries, in order, whatever the completion rule says. *)
Lemma numeric_scan_foldl_snd goal l st :
  (foldl (NumericStatisticsCalculator.collect goal) st l).2 =
  st.2 ++ omap LogEntry.value l.
Proof.
  revert st. induction l as [|x l IH]; intros st; simpl.
  - by rewrite app_nil_r.
  - rewrite IH, numeric_collect_snd.
    destruct (LogEntry.value x); simpl; by rewrite <- ?app_assoc, ?app_nil_r.
Qed.

(** ** Streaks *)

(** *** The backward walk from today *)

Lemma walk_back_spec (X : gset Z) fuel cursor n :
  let k := walk_back fuel X cursor n in
  n ≤ k ∧ k - n ≤ fuel ∧
  (∀ i : nat, i < k - n → (cursor - Z.of_nat i)%Z ∈ X) ∧
  (k - n < fuel → (cursor - Z.of_nat (k - n))%Z ∉ X).
Proof.
  revert cursor n. induction fuel as [|fuel IH]; intros cursor n; simpl.
  - repeat split; intros; lia.
  - destruct (decide (cursor ∈ X)) as [Hin|Hout].
    + destruct (IH (cursor - 1)%Z (n + 1)) as (H1 & H2 & H3 & H4).
      set (k := walk_back fuel X (cursor - 1) (n + 1)) in *.
      repeat split; try lia.
      * intros i Hi. destruct i as [|j].
        { by replace (cursor - Z.of_nat 0)%Z with cursor by lia. }
        replace (cursor - Z.of_nat (S j))%Z
          with (cursor - 1 - Z.of_nat j)%Z by lia.
        apply H3. lia.
      * intros Hlt.
        replace (cursor - Z.of_nat (k - n))%Z
          with (cursor - 1 - Z.of_nat (k - (n + 1)))%Z by lia.
        apply H4. lia.
    + repeat split; try lia.
      intros _. by replace (cursor - Z.of_nat (n - n))%Z with cursor by lia.
Qed.

(** [k] distinct days of a finite set: [k] is at most its size. *)
Lemma days_back_size (X : gset Z) cursor k :
  (∀ i : nat, i < k → (cursor - Z.of_nat i)%Z ∈ X) → k ≤ size X.
Proof.
  intros Hin.
  set (l := (λ i : nat, (cursor - Z.of_nat i)%Z) <$> seq 0 k).
  assert (NoDup l) as Hnd.
  { apply NoDup_fmap_2; [intros i j ?; lia | apply NoDup_seq]. }
  assert (list_to_set l ⊆ X) as Hsub.
  { intros x Hx. apply elem_of_list_to_set, list_elem_of_fmap in Hx
      as (i & -> & Hi). apply Hin. apply elem_of_seq in Hi. lia. }
  apply subseteq_size in Hsub.
  rewrite size_list_to_set in Hsub by done.
  unfold l in Hsub. by rewrite length_fmap, length_seq in Hsub.
Qed.

(** The walk leaves the loop through its test: the fuel is not used up. *)
Lemma walk_back_exits (X : gset Z) today :
  let k := walk_back (S (size X)) X today 0 in
  (∀ i : nat, i < k → (today - Z.of_nat i)%Z ∈ X) ∧
  (today - Z.of_nat k)%Z ∉ X.
Proof.
  destruct (walk_back_spec X (S (size X)) today 0) as (_ & _ & H3 & H4).
  set (k := walk_back (S (size X)) X today 0) in *. simpl.
  rewrite Nat.sub_0_r in H3, H4. split; [done|].
  apply H4. pose proof (days_back_size X today k H3). lia.
Qed.

(** *** The index loop is the scan of the specification *)

Lemma streak_step_middle pre p d rest c m :
  streak_step (pre ++ p :: d :: rest) (c, m) (S (length pre)) =
  let current := if (d - p =? 1)%Z then c + 1 else 1 in
  (current, m `max` current).
Proof.
  unfold streak_step.
  replace (S (length pre) - 1) with (length pre) by lia.
  rewrite (list_lookup_total_middle pre (d :: rest) p (length pre) eq_refl).
  assert ((pre ++ p :: d :: rest) !!! S (length pre) = d) as ->; [|done].
  apply list_lookup_total_correct.
  rewrite (cons_middle p), app_assoc.
  apply list_lookup_middle. rewrite length_app. simpl. lia.
Qed.

Lemma streak_loop_scan pre p rest st :
  foldl (streak_step (pre ++ p :: rest)) st
        (seq (S (length pre)) (length rest)) =
  scan_runs p st rest.
Proof.
  revert pre p st. induction rest as [|d rest IH]; intros pre p [c m]; [done|].
  cbn [length seq foldl scan_runs fst snd].
  rewrite streak_step_middle. cbv zeta.
  specialize (IH (pre ++ [p]) d). rewrite length_app in IH. simpl in IH.
  replace (length pre + 1) with (S (length pre)) in IH by lia.
  rewrite <- app_assoc in IH. apply IH.
Qed.

Lemma streak_loop_spec sorted_dates :
  (foldl (streak_step sorted_dates) (0, 0) (seq 0 (length sorted_dates))).2 =
  spec_longest_streak sorted_dates.
Proof.
  destruct sorted_dates as [|d rest]; [done|].
  exact (f_equal snd (streak_loop_scan [] d rest (1, 1))).
Qed.

(** *** The scan finds the longest run *)

Lemma run_mono (T T' : gset Z) d k : T ⊆ T' → run T d k → run T' d k.
Proof. intros Hsub Hr i Hi. apply Hsub, Hr, Hi. Qed.

Lemma scan_inv_init d : scan_inv {[ d ]} d (1, 1).
Proof.
  constructor; simpl; try lia.
  - intros i Hi. apply elem_of_singleton. lia.
  - rewrite elem_of_singleton. lia.
  - exists d. intros i Hi. apply elem_of_singleton. lia.
  - intros d' k Hr. destruct k as [|[|k]]; try lia.
    pose proof (Hr 0 ltac:(lia)) as H0. pose proof (Hr 1 ltac:(lia)) as H1.
    rewrite elem_of_singleton in H0, H1. lia.
  - intros x Hx. apply elem_of_singleton in Hx. lia.
Qed.

(** A run of the extended set either avoids the new, largest date or
    ends at it. *)
Lemma run_extended (T : gset Z) prev x c' m d k :
  (∀ y, y ∈ T → (y ≤ prev)%Z) → (prev < x)%Z →
  (x - Z.of_nat c')%Z ∉ ({[ x ]} ∪ T : gset Z) →
  (∀ d k, run T d k → k ≤ m) →
  run ({[ x ]} ∪ T) d k → k ≤ m `max` c'.
Proof.
  intros Htop Hlt Hstop Hmax Hr.
  destruct k as [|k]; [lia|].
  destruct (decide (d + Z.of_nat k < x)%Z) as [Hbelow|Hreach].
  - assert (run T d (S k)) as HrT.
    { intros i Hi. pose proof (Hr i Hi) as Hin.
      apply elem_of_union in Hin as [Hin|Hin]; [|done].
      apply elem_of_singleton in Hin. lia. }
    apply Hmax in HrT. lia.
  - assert (d + Z.of_nat k = x)%Z as Hend.
    { pose proof (Hr k ltac:(lia)) as Hin.
      apply elem_of_union in Hin as [Hin|Hin].
      - by apply elem_of_singleton in Hin.
      - apply Htop in Hin. lia. }
    destruct (decide (S k ≤ c')) as [|Hlong]; [lia|].
    exfalso. apply Hstop.
    replace (x - Z.of_nat c')%Z with (d + Z.of_nat (k - c'))%Z by lia.
    apply Hr. lia.
Qed.

Lemma scan_inv_step (T : gset Z) prev st x :
  scan_inv T prev st → (prev < x)%Z →
  let current := if (x - prev =? 1)%Z then st.1 + 1 else 1 in
  scan_inv ({[ x ]} ∪ T) x (current, st.2 `max` current).
Proof.
  intros [Hrun Hstop Hpos Hle [w Hwit] Hmax Htop] Hlt current.
  destruct st as [c m]. simpl in *.
  assert (∀ i : nat, i < current →
            (x - Z.of_nat i)%Z ∈ ({[ x ]} ∪ T : gset Z)) as Hrun'.
  { intros i Hi. apply elem_of_union.
    destruct i as [|j]; [left; apply elem_of_singleton; lia|right].
    unfold current in Hi. destruct (x - prev =? 1)%Z eqn:E; [|lia].
    apply Z.eqb_eq in E.
    replace (x - Z.of_nat (S j))%Z with (prev - Z.of_nat j)%Z by lia.
    apply Hrun. lia. }
  assert ((x - Z.of_nat current)%Z ∉ ({[ x ]} ∪ T : gset Z)) as Hstop'.
  { rewrite elem_of_union, elem_of_singleton. unfold current.
    destruct (x - prev =? 1)%Z eqn:E.
    - apply Z.eqb_eq in E. intros [?|Hin]; [lia|]. apply Hstop.
      by replace (prev - Z.of_nat c)%Z with (x - Z.of_nat (c + 1))%Z by lia.
    - apply Z.eqb_neq in E. intros [?|Hin]; [lia|]. apply Htop in Hin. lia. }
  assert (1 ≤ current) as Hpos'.
  { unfold current. destruct (x - prev =? 1)%Z; lia. }
  constructor; simpl; try lia; try done.
  - destruct (decide (current ≤ m)) as [Hcm|Hcm].
    + exists w. rewrite Nat.max_l by done.
      eapply run_mono; [|done]. apply union_subseteq_r.
    + exists (x - Z.of_nat (current - 1))%Z. rewrite Nat.max_r by lia.
      intros i Hi.
      replace (x - Z.of_nat (current - 1) + Z.of_nat i)%Z
        with (x - Z.of_nat (current - 1 - i))%Z by lia.
      apply Hrun'. lia.
  - intros d k Hr. by eapply run_extended.
  - intros y Hy. apply elem_of_union in Hy as [Hy|Hy].
    + apply elem_of_singleton in Hy. lia.
    + apply Htop in Hy. lia.
Qed.

Lemma scan_runs_inv l (T : gset Z) prev st :
  scan_inv T prev st → StronglySorted Z.lt (prev :: l) →
  ∃ last, scan_inv (list_to_set l ∪ T) last (scan_runs prev st l).
Proof.
  revert T prev st. induction l as [|x l IH]; intros T prev st Hinv Hsort.
  - exists prev. simpl. by rewrite (left_id_L ∅ (∪)).
  - apply StronglySorted_inv in Hsort as [Hsort Hall].
    apply Forall_cons in Hall as [Hlt _].
    destruct (IH _ _ _ (scan_inv_step T prev st x Hinv Hlt) Hsort)
      as [last Hlast].
    exists last. simpl.
    by replace (({[ x ]} ∪ list_to_set l) ∪ T : gset Z)
      with (list_to_set l ∪ ({[ x ]} ∪ T) : gset Z)
      by (rewrite (assoc_L (∪)); f_equal; apply (comm_L (∪))).
Qed.

Lemma sorted_le_lt (l : list Z) :
  StronglySorted Z.le l → NoDup l → StronglySorted Z.lt l.
Proof.
  induction 1 as [|x l Hsort IH Hall]; intros Hnd; constructor.
  - apply IH. by apply NoDup_cons in Hnd as [_ ?].
  - apply NoDup_cons in Hnd as [Hx _].
    apply Forall_forall. intros y Hy.
    pose proof (proj1 (Forall_forall _ _) Hall y Hy).
    destruct (decide (x = y)) as [->|]; [done|lia].
Qed.

(** The ascending list of a set of dates. *)
Lemma sorted_dates_spec (X : gset Z) :
  let sorted_dates := merge_sort Z.le (elements X) in
  StronglySorted Z.lt sorted_dates ∧ list_to_set sorted_dates = X.
Proof.
  simpl. split.
  - apply sorted_le_lt; [apply StronglySorted_merge_sort; apply _|].
    rewrite merge_sort_Permutation. apply NoDup_elements.
  - apply set_eq. intros x.
    by rewrite elem_of_list_to_set, merge_sort_Permutation, elem_of_elements.
Qed.

(** The scan of the specification returns the length of a longest run
    of consecutive dates of the set. *)
Lemma spec_longest_streak_run (X : gset Z) :
  let longest := spec_longest_streak (merge_sort Z.le (elements X)) in
  (∃ d, run X d longest) ∧ (∀ d k, run X d k → k ≤ longest).
Proof.
  destruct (sorted_dates_spec X) as [Hsort Hset]. simpl in *.
  destruct (merge_sort Z.le (elements X)) as [|d0 rest] eqn:E.
  - simpl. split; [exists 0%Z; intros i Hi; lia|].
    intros d k Hr. destruct k as [|k]; [lia|].
    pose proof (Hr 0 ltac:(lia)) as Hin. rewrite <- Hset in Hin.
    by apply elem_of_list_to_set in Hin; inversion Hin.
  - destruct (scan_runs_inv rest {[ d0 ]} d0 (1, 1) (scan_inv_init d0) Hsort)
      as [last Hinv].
    replace (list_to_set rest ∪ {[ d0 ]} : gset Z) with X in Hinv
      by (rewrite <- Hset; simpl; apply (comm_L (∪))).
    simpl. split; [apply (inv_wit _ _ _ Hinv)|apply (inv_max _ _ _ Hinv)].
Qed.

(** *** [_calculate_streaks] *)

Lemma calculate_streaks_empty today :
  _calculate_streaks today ∅ = (0, 0).
Proof. done. Qed.

Lemma calculate_streaks_nonempty today (X : gset Z) :
  X ≠ ∅ →
  _calculate_streaks today X =
  (walk_back (S (size X)) X today 0,
   spec_longest_streak (merge_sort Z.le (elements X))).
Proof.
  intros HX. unfold _calculate_streaks.
  destruct (decide (X = ∅)) as [|_]; [done|].
  rewrite <- streak_loop_spec.
  by destruct (foldl _ _ _).
Qed.

Lemma calculate_streaks_spec today (X : gset Z) :
  let current := (_calculate_streaks today X).1 in
  let longest := (_calculate_streaks today X).2 in
  (∀ i : nat, i < current → (today - Z.of_nat i)%Z ∈ X) ∧
  ((today - Z.of_nat current)%Z ∉ X) ∧
  longest = spec_longest_streak (merge_sort Z.le (elements X)) ∧
  (∃ d, run X d longest) ∧
  (∀ d k, run X d k → k ≤ longest).
Proof.
  destruct (decide (X = ∅)) as [->|HX].
  - rewrite calculate_streaks_empty. simpl.
    split; [intros; lia|]. split; [apply not_elem_of_empty|].
    split; [done|]. split; [exists 0%Z; intros i Hi; lia|].
    intros d k Hr. destruct k as [|k]; [lia|].
    pose proof (Hr 0 ltac:(lia)) as Hin. by apply not_elem_of_empty in Hin.
  - rewrite calculate_streaks_nonempty by done. simpl.
    destruct (walk_back_exits X today) as [Hrun Hstop].
    destruct (spec_longest_streak_run X) as [Hwit Hmax].
    done.
Qed.

(** The days counted by the current streak form a run of the set, so
    the longest streak is at least the current one. *)
Lemma current_le_longest today (X : gset Z) :
  (_calculate_streaks today X).1 ≤ (_calculate_streaks today X).2.
Proof.
  destruct (calculate_streaks_spec today X) as (Hrun & _ & _ & _ & Hmax).
  set (current := (_calculate_streaks today X).1) in *.
  apply (Hmax (today - Z.of_nat (current - 1))%Z).
  intros i Hi.
  replace (today - Z.of_nat (current - 1) + Z.of_nat i)%Z
    with (today - Z.of_nat (current - 1 - i))%Z by lia.
  apply Hrun. lia.
Qed.

(** *** The fields of the two results *)

Lemma boolean_calculate_fields today habit logs start end_ :
  let filtered := _filter_logs_by_date logs start end_ in
  let completed := BooleanStatisticsCalculator.completed filtered in
  let r := BooleanStatisticsCalculator.calculate today habit logs start end_ in
  current_streak r = (_calculate_streaks today completed).1 ∧
  longest_streak r = (_calculate_streaks today completed).2 ∧
  total_completions r = size completed ∧
  total_days_tracked r = length filtered ∧
  completion_rate r = rate (size completed) (length filtered) ∧
  average_value r = None.
Proof.
  simpl. unfold BooleanStatisticsCalculator.calculate.
  destruct (_calculate_streaks _ _) as [c l]. simpl.
  by destruct (_filter_logs_by_date logs start end_).
Qed.

Lemma numeric_calculate_fields today habit logs start end_ :
  let filtered := _filter_logs_by_date logs start end_ in
  let st := NumericStatisticsCalculator.scan (Habit.goal habit) filtered in
  let r := NumericStatisticsCalculator.calculate today habit logs start end_ in
  current_streak r = (_calculate_streaks today st.1).1 ∧
  longest_streak r = (_calculate_streaks today st.1).2 ∧
  total_completions r = size st.1 ∧
  total_days_tracked r = length filtered ∧
  completion_rate r = rate (size st.1) (length filtered) ∧
  average_value r =
    match st.2 with
    | [] => None
    | _ => Some (float.truediv (NumericStatisticsCalculator.sum st.2)
                   (float.of_int (Z.of_nat (length st.2))))
    end.
Proof.
  simpl. unfold NumericStatisticsCalculator.calculate.
  destruct (NumericStatisticsCalculator.scan _ _) as [completed values].
  destruct (_calculate_streaks _ _) as [c l]. simpl.
  by destruct (_filter_logs_by_date logs start end_).
Qed.

(** *** Counting *)

Lemma size_add_date (X : gset Z) d : size ({[ d ]} ∪ X) ≤ S (size X).
Proof.
  rewrite size_union_alt, size_singleton.
  assert (size (X ∖ {[ d ]}) ≤ size X); [|lia].
  apply subseteq_size, subseteq_difference_l. done.
Qed.

Lemma boolean_completed_size l acc :
  size (foldl BooleanStatisticsCalculator.collect acc l) ≤ size acc + length l.
Proof.
  revert acc. induction l as [|x l IH]; intros acc; simpl; [lia|].
  etrans; [apply IH|].
  assert (size (BooleanStatisticsCalculator.collect acc x) ≤ S (size acc));
    [|lia].
  unfold BooleanStatisticsCalculator.collect.
  destruct (LogEntry.value x) as [v|]; [|lia].
  destruct (Qle_bool 1 v); [apply size_add_date|lia].
Qed.

Lemma numeric_completed_size goal l st :
  size (foldl (NumericStatisticsCalculator.collect goal) st l).1 ≤
  size st.1 + length l.
Proof.
  revert st. induction l as [|x l IH]; intros st; simpl; [lia|].
  etrans; [apply IH|].
  assert (size (NumericStatisticsCalculator.collect goal st x).1 ≤ S (size st.1));
    [|lia].
  unfold NumericStatisticsCalculator.collect. destruct st as [acc vs].
  destruct (LogEntry.value x) as [v|]; simpl; [|lia].
  destruct goal as [g|];
    [destruct (Qle_bool g v)|destruct (Qgt_bool v 0)]; simpl;
    first [apply size_add_date|lia].
Qed.

(** *** The rate *)

Lemma rate_bounds c d : c ≤ d → (0 <= rate c d <= 1)%Q.
Proof.
  intros Hcd. unfold rate. destruct (0 <? d) eqn:E.
  - apply Nat.ltb_lt in E.
    assert (0 < inject_Z (Z.of_nat d))%Q as Hd.
    { rewrite <- (Zlt_Qlt 0). lia. }
    split.
    + apply Qle_shift_div_l; [done|]. rewrite Qmult_0_l.
      rewrite <- (Zle_Qle 0). lia.
    + apply Qle_shift_div_r; [done|]. rewrite Qmult_1_l.
      rewrite <- Zle_Qle. lia.
  - split; [apply Qle_refl|done].
Qed.

(** *** The average *)


(** ** The statistics engine: claims *)

(** C1.  After the logs are filtered to the optional inclusive window, a
    date is completed iff some filtered entry on that date carries a
    value that is, for the boolean calculator, at least 1; for the
    numeric calculator with a goal, at least the goal; for the numeric
    calculator without a goal, positive.  [total_completions] is the
    number of distinct such dates: entries that qualify on the same date
    count once.  The factory sends each habit type to its calculator. *)
Theorem C1_completion_rule today habit logs start end_ :
  let filtered := _filter_logs_by_date logs start end_ in
  let on_date ty d :=
    ∃ log, log ∈ filtered ∧ LogEntry.date log = d ∧
           completes ty (Habit.goal habit) log in
  let b := BooleanStatisticsCalculator.calculate today habit logs start end_ in
  let n := NumericStatisticsCalculator.calculate today habit logs start end_ in
  (∀ log, log ∈ filtered ↔
          log ∈ logs ∧ in_window start end_ (LogEntry.date log)) ∧
  (∀ d, d ∈ BooleanStatisticsCalculator.completed filtered ↔ on_date BOOLEAN d) ∧
  (∀ d, d ∈ (NumericStatisticsCalculator.scan (Habit.goal habit) filtered).1 ↔
        on_date NUMERIC d) ∧
  (∃ dates, NoDup dates ∧ (∀ d, d ∈ dates ↔ on_date BOOLEAN d) ∧
            total_completions b = length dates) ∧
  (∃ dates, NoDup dates ∧ (∀ d, d ∈ dates ↔ on_date NUMERIC d) ∧
            total_completions n = length dates) ∧
  StatisticsCalculatorFactory._calculators BOOLEAN =
    Some BooleanStatisticsCalculator.calculate ∧
  StatisticsCalculatorFactory._calculators NUMERIC =
    Some NumericStatisticsCalculator.calculate.
Proof.
  intros filtered on_date b n.
  assert (∀ d, d ∈ BooleanStatisticsCalculator.completed filtered ↔
               on_date BOOLEAN d) as Hb.
  { intros d. unfold BooleanStatisticsCalculator.completed.
    rewrite (boolean_completed_foldl (Habit.goal habit)).
    split; [intros [Hin|?]; [by apply not_elem_of_empty in Hin|done]|by right]. }
  assert (∀ d, d ∈ (NumericStatisticsCalculator.scan (Habit.goal habit)
                      filtered).1 ↔ on_date NUMERIC d) as Hn.
  { intros d. unfold NumericStatisticsCalculator.scan.
    rewrite numeric_scan_foldl_fst. simpl.
    split; [intros [Hin|?]; [by apply not_elem_of_empty in Hin|done]|by right]. }
  split; [intros log; apply filter_logs_spec|].
  split; [done|]. split; [done|].
  destruct (boolean_calculate_fields today habit logs start end_)
    as (_ & _ & Hbc & _).
  destruct (numeric_calculate_fields today habit logs start end_)
    as (_ & _ & Hnc & _).
  split; [|split; [|done]].
  - exists (elements (BooleanStatisticsCalculator.completed filtered)).
    split; [apply NoDup_elements|]. split; [|done].
    intros d. by rewrite elem_of_elements.
  - exists (elements (NumericStatisticsCalculator.scan (Habit.goal habit)
                        filtered).1).
    split; [apply NoDup_elements|]. split; [|done].
    intros d. by rewrite elem_of_elements.
Qed.

(** C2.  The current streak is the number of consecutive calendar days,
    counted backward from today inclusive, that belong to the set: those
    days are all completed and the next one back is not; it is 0 when
    today is not completed.  The longest streak is what the scan of the
    ascending list computes, and it is the length of a longest run of
    consecutive dates of the set.  Both are 0 for the empty set. *)
Theorem C2_streaks today (completed_dates : gset Z) :
  let current := (_calculate_streaks today completed_dates).1 in
  let longest := (_calculate_streaks today completed_dates).2 in
  (∀ i : nat, i < current → (today - Z.of_nat i)%Z ∈ completed_dates) ∧
  ((today - Z.of_nat current)%Z ∉ completed_dates) ∧
  (today ∉ completed_dates → current = 0) ∧
  longest =
    spec_longest_streak (merge_sort Z.le (elements completed_dates)) ∧
  (∃ d, run completed_dates d longest) ∧
  (∀ d k, run completed_dates d k → k ≤ longest) ∧
  (completed_dates = ∅ → current = 0 ∧ longest = 0).
Proof.
  intros current longest.
  destruct (calculate_streaks_spec today completed_dates)
    as (Hrun & Hstop & Hscan & Hwit & Hmax).
  split; [done|]. split; [done|]. split; [|split; [done|]].
  - intros Hout. destruct (decide (current = 0)) as [|Hpos]; [done|].
    exfalso. apply Hout.
    replace today with (today - Z.of_nat 0)%Z by lia.
    apply Hrun. fold current. lia.
  - split; [done|]. split; [done|]. by intros ->.
Qed.

(** C3.  For both calculators the completion rate lies in [0,1]; it is
    [total_completions / total_days_tracked] when some entry is tracked
    and 0 otherwise, where [total_completions] is the size of the set of
    completed dates and [total_days_tracked] the number of filtered
    entries. *)
Theorem C3_completion_rate today habit logs start end_ :
  let filtered := _filter_logs_by_date logs start end_ in
  let b := BooleanStatisticsCalculator.calculate today habit logs start end_ in
  let n := NumericStatisticsCalculator.calculate today habit logs start end_ in
  let rate_of r :=
    (0 <= completion_rate r <= 1)%Q ∧
    (0 < total_days_tracked r →
     completion_rate r =
       (inject_Z (Z.of_nat (total_completions r)) /
        inject_Z (Z.of_nat (total_days_tracked r)))%Q) ∧
    (total_days_tracked r = 0 → completion_rate r = 0%Q) in
  rate_of b ∧ rate_of n ∧
  total_completions b = size (BooleanStatisticsCalculator.completed filtered) ∧
  total_completions n =
    size (NumericStatisticsCalculator.scan (Habit.goal habit) filtered).1 ∧
  total_days_tracked b = length filtered ∧
  total_days_tracked n = length filtered.
Proof.
  intros filtered b n rate_of.
  destruct (boolean_calculate_fields today habit logs start end_)
    as (_ & _ & Hbc & Hbd & Hbr & _).
  destruct (numeric_calculate_fields today habit logs start end_)
    as (_ & _ & Hnc & Hnd & Hnr & _).
  fold filtered b in Hbc, Hbd, Hbr. fold filtered n in Hnc, Hnd, Hnr.
  assert (∀ r c, completion_rate r = rate c (length filtered) →
                 total_completions r = c →
                 total_days_tracked r = length filtered →
                 c ≤ length filtered → rate_of r) as Hrate.
  { intros r c Hr Hc Hd Hle. unfold rate_of. rewrite Hr, Hc, Hd.
    split; [by apply rate_bounds|]. unfold rate.
    split; intros Hdays.
    - apply Nat.ltb_lt in Hdays. by rewrite Hdays.
    - by rewrite Hdays. }
  split; [|split]; [| |done].
  - eapply Hrate; [done..|].
    pose proof (boolean_completed_size filtered ∅) as Hsz.
    by rewrite size_empty in Hsz.
  - eapply Hrate; [done..|].
    pose proof (numeric_completed_size (Habit.goal habit) filtered (∅, [])) as Hsz.
    simpl in Hsz. by rewrite ?size_empty in Hsz.
Qed.

(** C4, as the code has it.  For every habit, log list, window and
    today, both calculators return [current_streak ≤ longest_streak];
    in the scenario of the specification the result has current streak
    0 and longest streak 5, which agrees with the inequality. *)
Theorem C4_longest_at_least_current today habit logs start end_ :
  let b := BooleanStatisticsCalculator.calculate today habit logs start end_ in
  let n := NumericStatisticsCalculator.calculate today habit logs start end_ in
  let h :=
    BooleanStatisticsCalculator.calculate historical_today historical_habit
      historical_logs None None in
  current_streak b ≤ longest_streak b ∧
  current_streak n ≤ longest_streak n ∧
  current_streak h = 0 ∧ longest_streak h = 5.
Proof.
  intros b n h. unfold b, n.
  destruct (boolean_calculate_fields today habit logs start end_)
    as (-> & -> & _).
  destruct (numeric_calculate_fields today habit logs start end_)
    as (-> & -> & _).
  split; [apply current_le_longest|].
  split; [apply current_le_longest|].
  by vm_compute.
Qed.

(** C4, as stated, fails: no input at all, with or without today in its
    window, makes either calculator return a longest streak below the
    current streak. *)
Lemma C4_no_input_violates :
  ¬ ∃ today habit logs start end_,
      longest_streak
        (BooleanStatisticsCalculator.calculate today habit logs start end_) <
      current_streak
        (BooleanStatisticsCalculator.calculate today habit logs start end_) ∨
      longest_streak
        (NumericStatisticsCalculator.calculate today habit logs start end_) <
      current_streak
        (NumericStatisticsCalculator.calculate today habit logs start end_).
Proof.
  intros (today & habit & logs & start & end_ & H).
  destruct (boolean_calculate_fields today habit logs start end_)
    as (Hbc & Hbl & _).
  destruct (numeric_calculate_fields today habit logs start end_)
    as (Hnc & Hnl & _).
  simpl in *. rewrite Hbc, Hbl, Hnc, Hnl in H.
  pose proof (current_le_longest today
    (BooleanStatisticsCalculator.completed
       (_filter_logs_by_date logs start end_))).
  pose proof (current_le_longest today
    (NumericStatisticsCalculator.scan (Habit.goal habit)
       (_filter_logs_by_date logs start end_)).1).
  lia.
Qed.



(** ** The habit service *)

(** *** Loops in the monad *)

Lemma for_each_app {S A} (body : A → M S ()) l1 l2 (s : S) :
  for_each body (l1 ++ l2) s =
  match for_each body l1 s with
  | (Ok _, s1) => for_each body l2 s1
  | (Raise e, s1) => (Raise e, s1)
  end.
Proof.
  revert s. induction l1 as [|x l1 IH]; intros s; [done|].
  simpl. unfold mbind, M_bind.
  destruct (body x s) as [[[]|e] s1]; [apply IH|done].
Qed.

(** What every run of the body preserves, the loop preserves, however
    it ends. *)
Lemma for_each_invariant {S A} (I : S → Prop) (body : A → M S ()) l s r s' :
  (∀ x s r s', I s → body x s = (r, s') → I s') →
  I s → for_each body l s = (r, s') → I s'.
Proof.
  intros Hbody. revert s. induction l as [|x l IH]; intros s Hs Hrun.
  - by injection Hrun as _ <-.
  - simpl in Hrun. unfold mbind, M_bind in Hrun.
    destruct (body x s) as [[[]|e] s1] eqn:E.
    + eapply IH; [|done]. by eapply Hbody.
    + injection Hrun as _ <-. by eapply Hbody.
Qed.

(** *** The recursive delete *)

Lemma delete_habit_unfold fuel habit_id (s : store) :
  delete_habit (S fuel) habit_id s =
  match habit_repo s !! habit_id with
  | None => (Raise not_found, s)
  | Some habit =>
      match for_each (delete_habit fuel) (Habit.subhabit_ids habit) s with
      | (Ok _, s1) =>
          (Ok (), mkHabitService (delete habit_id (habit_repo s1)) (log_repo s1))
      | (Raise e, s1) => (Raise e, s1)
      end
  end.
Proof.
  simpl. unfold InMemoryHabitRepository.get.
  destruct (habit_repo s !! habit_id) as [habit|]; [|done].
  unfold mbind, M_bind.
  by destruct (for_each _ _ s) as [[[]|e] s1].
Qed.

Lemma shrinks_refl s : shrinks s s.
Proof. by split. Qed.

Lemma shrinks_trans s1 s2 s3 : shrinks s1 s2 → shrinks s2 s3 → shrinks s1 s3.
Proof. intros [? ?] [? ?]. split; [by etrans|congruence]. Qed.

Lemma shrinks_absent s s' k :
  shrinks s s' → habit_repo s !! k = None → habit_repo s' !! k = None.
Proof. intros [Hsub _] HNone. by eapply lookup_weaken_None. Qed.

Lemma shrinks_present s s' k h :
  shrinks s s' → habit_repo s' !! k = Some h → habit_repo s !! k = Some h.
Proof. intros [Hsub _] HSome. by eapply lookup_weaken. Qed.

Lemma delete_habit_shrinks fuel habit_id (s : store) r s' :
  delete_habit fuel habit_id s = (r, s') → shrinks s s'.
Proof.
  revert habit_id s r s'.
  induction fuel as [|fuel IH]; intros habit_id s r s' Hrun.
  - injection Hrun as _ <-. apply shrinks_refl.
  - rewrite delete_habit_unfold in Hrun.
    destruct (habit_repo s !! habit_id) as [habit|];
      [|injection Hrun as _ <-; apply shrinks_refl].
    destruct (for_each _ _ s) as [[[]|e] s1] eqn:E.
    + assert (shrinks s s1) as Hs1.
      { eapply (for_each_invariant (shrinks s)); [|apply shrinks_refl|exact E].
        intros x t rt t' Ht Hx. eapply shrinks_trans; [done|by eapply IH]. }
      injection Hrun as _ <-. eapply shrinks_trans; [done|].
      split; [apply delete_subseteq|done].
    + injection Hrun as _ <-.
      eapply (for_each_invariant (shrinks s)); [|apply shrinks_refl|exact E].
      intros x t rt t' Ht Hx. eapply shrinks_trans; [done|by eapply IH].
Qed.

Lemma delete_each_shrinks fuel l (s : store) r s' :
  for_each (delete_habit fuel) l s = (r, s') → shrinks s s'.
Proof.
  intros Hrun.
  eapply (for_each_invariant (shrinks s)); [|apply shrinks_refl|exact Hrun].
  intros x t rt t' Ht Hx.
  eapply shrinks_trans; [done|by eapply delete_habit_shrinks].
Qed.

(** A delete that returns has found its habit and has removed it. *)
Lemma delete_habit_ok fuel habit_id (s : store) s' :
  delete_habit fuel habit_id s = (Ok (), s') →
  is_Some (habit_repo s !! habit_id) ∧ habit_repo s' !! habit_id = None.
Proof.
  destruct fuel as [|fuel]; [done|].
  rewrite delete_habit_unfold.
  destruct (habit_repo s !! habit_id) as [habit|]; [|done].
  destruct (for_each _ _ s) as [[[]|e] s1]; [|done].
  intros [= <-]. split; [done|]. apply lookup_delete_eq.
Qed.

(** When the loop over the sub-habits returns, each of them was in the
    store before it and is in it no more. *)
Lemma delete_each_ok fuel l (s : store) s' :
  for_each (delete_habit fuel) l s = (Ok (), s') →
  ∀ c, c ∈ l → is_Some (habit_repo s !! c) ∧ habit_repo s' !! c = None.
Proof.
  revert s. induction l as [|x l IH]; intros s Hrun c Hc; [by inversion Hc|].
  simpl in Hrun. unfold mbind, M_bind in Hrun.
  destruct (delete_habit fuel x s) as [[[]|e] s1] eqn:E; [|done].
  pose proof (delete_habit_shrinks _ _ _ _ _ E) as Hs1.
  pose proof (delete_each_shrinks _ _ _ _ _ Hrun) as Hs'.
  apply delete_habit_ok in E as [Hx Hx'].
  destruct (decide (c = x)) as [->|Hne].
  - split; [done|]. by eapply shrinks_absent.
  - apply elem_of_cons in Hc as [?|Hc]; [done|].
    destruct (IH _ Hrun c Hc) as [[h Hh] Hgone].
    split; [|done]. exists h. by eapply shrinks_present.
Qed.

(** The only exceptions of the recursive delete. *)
Lemma delete_habit_raises fuel habit_id (s : store) e s' :
  delete_habit fuel habit_id s = (Raise e, s') →
  e = not_found ∨ e = RecursionError.
Proof.
  revert habit_id s e s'.
  induction fuel as [|fuel IH]; intros habit_id s e s' Hrun.
  - injection Hrun as <- _. by right.
  - rewrite delete_habit_unfold in Hrun.
    destruct (habit_repo s !! habit_id) as [habit|];
      [|injection Hrun as <- _; by left].
    destruct (for_each _ _ s) as [[[]|e1] s1] eqn:E; [done|].
    injection Hrun as <- _. clear habit_id s'.
    revert s E. induction (Habit.subhabit_ids habit) as [|x l IHl];
      intros s E; [done|].
    simpl in E. unfold mbind, M_bind in E.
    destruct (delete_habit fuel x s) as [[[]|e2] s2] eqn:E2.
    + by eapply IHl.
    + injection E as <- _. by eapply IH.
Qed.

(** A habit that lists an absent id among its sub-habits survives every
    recursive delete, whichever habit the delete starts from. *)
Lemma delete_habit_keeps fuel x (s : store) r s' habit_id habit ghost :
  habit_repo s !! habit_id = Some habit →
  ghost ∈ Habit.subhabit_ids habit →
  habit_repo s !! ghost = None →
  delete_habit fuel x s = (r, s') →
  habit_repo s' !! habit_id = Some habit.
Proof.
  intros Hh Hin. revert x s r s' Hh.
  induction fuel as [|fuel IH]; intros x s r s' Hh Hghost Hrun.
  - by injection Hrun as _ <-.
  - rewrite delete_habit_unfold in Hrun.
    destruct (habit_repo s !! x) as [hx|] eqn:Ex;
      [|by injection Hrun as _ <-].
    destruct (for_each _ _ s) as [[[]|e] s1] eqn:E.
    + assert (habit_repo s1 !! habit_id = Some habit ∧ shrinks s s1)
        as [Hh1 _].
      { eapply (for_each_invariant
                  (λ t, habit_repo t !! habit_id = Some habit ∧ shrinks s t));
          [|split; [done|apply shrinks_refl]|exact E].
        intros y t rt t' [Ht Hst] Hy. split.
        - eapply IH; [done| |done]. by eapply shrinks_absent.
        - eapply shrinks_trans; [done|by eapply delete_habit_shrinks]. }
      injection Hrun as _ <-. simpl.
      destruct (decide (x = habit_id)) as [->|Hne];
        [|by rewrite lookup_delete_ne].
      exfalso. rewrite Hh in Ex. injection Ex as <-.
      destruct (delete_each_ok _ _ _ _ E ghost Hin) as [[? Hsome] _].
      congruence.
    + injection Hrun as _ <-.
      eapply (for_each_invariant
                (λ t, habit_repo t !! habit_id = Some habit ∧ shrinks s t));
        [|split; [done|apply shrinks_refl]|exact E].
      intros y t rt t' [Ht Hst] Hy. split.
      * eapply IH; [done| |done]. by eapply shrinks_absent.
      * eapply shrinks_trans; [done|by eapply delete_habit_shrinks].
Qed.

(** *** Update *)

Lemma keyed_by_id_insert m h :
  keyed_by_id m → keyed_by_id (<[Habit.id h := h]> m).
Proof.
  intros Hm. apply map_Forall_insert_2; [done|apply Hm].
Qed.

Lemma apply_update_updated_by update habit :
  updated_by update habit (apply_update update habit).
Proof.
  destruct update as [[n|] [d|] [c|] [g|]]; destruct habit; by repeat split.
Qed.

(** The five columns written by the SQL [UPDATE] are the only fields
    [apply_update] can have changed. *)
Lemma sqlite_row_written update habit :
  let new := apply_update update habit in
  Habit.set_subhabit_ids (Habit.subhabit_ids new)
    (Habit.set_goal (Habit.goal new)
      (Habit.set_category (Habit.category new)
        (Habit.set_description (Habit.description new)
          (Habit.set_name (Habit.name new) habit)))) = new.
Proof.
  destruct update as [[n|] [d|] [c|] [g|]]; by destruct habit.
Qed.

Lemma update_habit_in_memory (s : store) habit_id habit update :
  keyed_by_id (habit_repo s) →
  habit_repo s !! habit_id = Some habit →
  update_habit habit_id update s =
  (Ok (apply_update update habit),
   mkHabitService (<[habit_id := apply_update update habit]> (habit_repo s))
     (log_repo s)).
Proof.
  intros Hkeys Hlook.
  assert (Habit.id (apply_update update habit) = habit_id) as Hid.
  { destruct (apply_update_updated_by update habit)
      as (_ & _ & _ & _ & -> & _). by apply (Hkeys habit_id). }
  unfold update_habit. simpl. unfold InMemoryHabitRepository.get.
  rewrite Hlook. unfold mbind, M_bind, on_habits. simpl.
  unfold InMemoryHabitRepository.update, InMemoryHabitRepository.assign.
  rewrite Hid, lookup_insert_eq. simpl.
  by rewrite insert_insert_eq.
Qed.

Lemma update_habit_sqlite (s : store) habit_id habit update :
  keyed_by_id (habit_repo s) →
  habit_repo s !! habit_id = Some habit →
  @update_habit _ _ SQLiteHabitRepository.inst habit_id update s =
  (Ok (apply_update update habit),
   mkHabitService (<[habit_id := apply_update update habit]> (habit_repo s))
     (log_repo s)).
Proof.
  intros Hkeys Hlook.
  assert (Habit.id (apply_update update habit) = habit_id) as Hid.
  { destruct (apply_update_updated_by update habit)
      as (_ & _ & _ & _ & -> & _). by apply (Hkeys habit_id). }
  unfold update_habit. simpl. unfold SQLiteHabitRepository.get.
  rewrite Hlook. unfold mbind, M_bind, on_habits. simpl.
  unfold SQLiteHabitRepository.update, SQLiteHabitRepository.assign.
  rewrite Hid, Hlook. simpl.
  by rewrite (sqlite_row_written update habit).
Qed.

(** *** Every store the API reaches is keyed by id *)

Lemma keyed_by_id_shrinks (s s' : store) :
  shrinks s s' → keyed_by_id (habit_repo s) → keyed_by_id (habit_repo s').
Proof.
  intros [Hsub _] Hkeys k h Hlook. apply (Hkeys k).
  by eapply lookup_weaken.
Qed.

Lemma exec_except_ValueError {A} (m : M store A) (s : store) :
  exec (controllers.except_ValueError m) s = exec m s.
Proof.
  unfold exec, controllers.except_ValueError.
  by destruct (m s) as [[a|[]] s'].
Qed.

Lemma add_subhabit_in_memory (s : store) parent_id parent subhabit :
  keyed_by_id (habit_repo s) →
  habit_repo s !! parent_id = Some parent →
  let parent' :=
    Habit.set_subhabit_ids
      (Habit.subhabit_ids parent ++ [Habit.id subhabit]) parent in
  let subhabit' := Habit.set_parent_id (Some parent_id) subhabit in
  add_subhabit parent_id subhabit s =
  (Ok (),
   mkHabitService
     (<[parent_id := parent']>
        (<[Habit.id subhabit := subhabit']>
           (<[parent_id := parent']> (habit_repo s))))
     (log_repo s)).
Proof.
  intros Hkeys Hlook parent' subhabit'.
  pose proof (Hkeys parent_id parent Hlook) as Hid. simpl in Hid.
  unfold add_subhabit. simpl. unfold InMemoryHabitRepository.get.
  rewrite Hlook. unfold mbind, M_bind, on_habits. simpl.
  unfold InMemoryHabitRepository.update, InMemoryHabitRepository.assign.
  simpl. rewrite Hid. fold parent' subhabit'.
  assert (is_Some ((<[Habit.id subhabit := subhabit']>
                      (<[parent_id := parent']> (habit_repo s))) !! parent_id))
    as [found Hfound].
  { destruct (decide (Habit.id subhabit = parent_id)) as [->|Hne].
    - rewrite lookup_insert_eq. by eexists.
    - rewrite lookup_insert_ne, lookup_insert_eq by done. by eexists. }
  by rewrite Hfound.
Qed.

Lemma api_step_keyed_by_id (s s' : store) :
  api_step s s' → keyed_by_id (habit_repo s) → keyed_by_id (habit_repo s').
Proof.
  intros Hstep Hkeys. destruct Hstep as
    [uuid now pl s _|uuid now habit_id pl s _|habit_id pl s|fuel habit_id s].
  - unfold exec. simpl.
    by apply (keyed_by_id_insert _ (Habit.mk uuid _ _ _ _ _ _ _ _)).
  - unfold controllers.add_subhabit. rewrite exec_except_ValueError.
    unfold exec, mbind, M_bind.
    destruct (habit_repo s !! habit_id) as [parent|] eqn:Hparent.
    + rewrite (add_subhabit_in_memory s habit_id parent) by done. simpl.
      pose proof (Hkeys habit_id parent Hparent) as Hid. simpl in Hid.
      rewrite <- Hid.
      set (parent' := Habit.set_subhabit_ids _ parent).
      set (sub := Habit.set_parent_id _ _).
      apply (keyed_by_id_insert _ parent'), (keyed_by_id_insert _ sub).
      by apply (keyed_by_id_insert _ parent').
    + unfold add_subhabit. simpl. unfold InMemoryHabitRepository.get.
      by rewrite Hparent.
  - unfold controllers.update_habit. rewrite exec_except_ValueError.
    destruct (habit_repo s !! habit_id) as [habit|] eqn:Hlook.
    + unfold exec. rewrite (update_habit_in_memory s habit_id habit) by done.
      simpl. pose proof (apply_update_updated_by pl habit)
        as (_ & _ & _ & _ & Hid & _).
      replace habit_id with (Habit.id (apply_update pl habit))
        by (rewrite Hid; by apply (Hkeys habit_id)).
      by apply keyed_by_id_insert.
    + unfold exec, update_habit. simpl. unfold InMemoryHabitRepository.get.
      by rewrite Hlook.
  - unfold controllers.delete_habit. rewrite exec_except_ValueError.
    unfold exec. destruct (delete_habit fuel habit_id s) as [r s'] eqn:E.
    eapply keyed_by_id_shrinks; [|done]. by eapply delete_habit_shrinks.
Qed.

Lemma api_reachable_keyed_by_id (s : store) :
  api_reachable s → keyed_by_id (habit_repo s).
Proof.
  unfold api_reachable. revert s.
  apply (rtc_ind_r (λ s, keyed_by_id (habit_repo s))).
  - apply map_Forall_empty.
  - intros s1 s2 _ Hstep IH. by eapply api_step_keyed_by_id.
Qed.

(** *** Stores reached by concrete requests *)

Lemma orphan_store_reachable : api_reachable orphan_store.
Proof. unfold orphan_store. reach_step. apply rtc_refl. Qed.

Lemma family_store_reachable : api_reachable family_store.
Proof. unfold family_store. do 2 reach_step. apply rtc_refl. Qed.

Lemma widowed_store_reachable : api_reachable widowed_store.
Proof.
  unfold widowed_store. reach_step. apply family_store_reachable.
Qed.

Lemma stranded_store_reachable : api_reachable stranded_store.
Proof. unfold stranded_store. do 6 reach_step. apply rtc_refl. Qed.

Lemma bereaved_store_reachable : api_reachable bereaved_store.
Proof.
  unfold bereaved_store. do 2 reach_step. apply family_store_reachable.
Qed.

(** ** The habit service: claims *)

(** C6.  Deleting a habit first deletes, in order and recursively, every
    id of its [subhabit_ids] and then the habit itself: when the loop
    over the sub-habits returns, the habit is deleted from the store the
    loop left; when the loop raises, the delete raises the same
    exception from the same store, before the habit's own removal.  A
    delete that returns leaves neither the habit nor any of its
    sub-habits in the store.  In particular, deleting a parent whose
    only sub-habit is in the store and has no sub-habits of its own
    returns, and getting the parent or the child afterwards returns
    nothing. *)
Theorem C6_cascading_delete (s : store) fuel parent_id parent :
  habit_repo s !! parent_id = Some parent →
  (∀ s1, for_each (delete_habit fuel) (Habit.subhabit_ids parent) s = (Ok (), s1) →
         delete_habit (S fuel) parent_id s =
         (Ok (), mkHabitService (delete parent_id (habit_repo s1)) (log_repo s1))) ∧
  (∀ e s1, for_each (delete_habit fuel) (Habit.subhabit_ids parent) s = (Raise e, s1) →
           delete_habit (S fuel) parent_id s = (Raise e, s1)) ∧
  (∀ s', delete_habit (S fuel) parent_id s = (Ok (), s') →
         get_habit parent_id s' = None ∧
         ∀ c, c ∈ Habit.subhabit_ids parent → get_habit c s' = None) ∧
  (∀ child_id child,
     Habit.subhabit_ids parent = [child_id] →
     habit_repo s !! child_id = Some child →
     Habit.subhabit_ids child = [] →
     let s' := mkHabitService
                 (delete parent_id (delete child_id (habit_repo s)))
                 (log_repo s) in
     delete_habit (S (S fuel)) parent_id s = (Ok (), s') ∧
     get_habit parent_id s' = None ∧ get_habit child_id s' = None).
Proof.
  intros Hparent. split; [|split; [|split]].
  - intros s1 Hloop. by rewrite delete_habit_unfold, Hparent, Hloop.
  - intros e s1 Hloop. by rewrite delete_habit_unfold, Hparent, Hloop.
  - intros s' Hrun. split; [by apply delete_habit_ok in Hrun as [_ ?]|].
    intros c Hc. rewrite delete_habit_unfold, Hparent in Hrun.
    destruct (for_each _ _ s) as [[[]|e] s1] eqn:E; [|done].
    injection Hrun as <-. unfold get_habit. simpl.
    unfold InMemoryHabitRepository.get.
    destruct (delete_each_ok _ _ _ _ E c Hc) as [_ Hgone].
    apply lookup_delete_None. by right.
  - intros child_id child Hsubs Hchild Hleaf s'.
    split; [|split].
    + rewrite delete_habit_unfold, Hparent, Hsubs.
      cbn [for_each]. unfold mbind, M_bind.
      rewrite delete_habit_unfold, Hchild, Hleaf. done.
    + apply lookup_delete_eq.
    + unfold get_habit. simpl. unfold InMemoryHabitRepository.get.
      apply lookup_delete_None. right. apply lookup_delete_eq.
Qed.

(** C8.  Whatever the repositories, when the addressed habit id (for
    add-subhabit, the parent id) is not in the habit repository, each of
    update, delete, add-subhabit, record-log, get-logs and
    get-statistics raises its not-found [ValueError] and leaves the
    habit and log repositories as they were; get returns [None]. *)
Theorem C8_not_found {R L} `{!HabitRepository R, !LogRepository L}
    (s : HabitService R L) habit_id :
  habit_get habit_id (habit_repo s) = None →
  (∀ update, update_habit habit_id update s = (Raise not_found, s)) ∧
  (∀ fuel, delete_habit (S fuel) habit_id s = (Raise not_found, s)) ∧
  (∀ subhabit,
     add_subhabit habit_id subhabit s =
     (Raise (ValueError "Parent habit not found"), s)) ∧
  (∀ uuid now date_ value,
     record_log uuid now habit_id date_ value s = (Raise not_found, s)) ∧
  (∀ start end_, get_logs habit_id start end_ s = (Raise not_found, s)) ∧
  (∀ table today start end_,
     get_statistics table today habit_id start end_ s = (Raise not_found, s)) ∧
  get_habit habit_id s = None.
Proof.
  intros Habsent.
  unfold update_habit, add_subhabit, record_log, get_logs, get_statistics,
    get_habit.
  simpl. rewrite Habsent. done.
Qed.

(** C9.  Updating an existing habit returns and stores the habit with
    exactly the supplied fields among name, description, category and
    goal replaced; the omitted ones, and id, type, created_at, parent_id
    and subhabit_ids, are as before, and so are all other habits and the
    logs.  This holds over the in-memory repository and over the SQLite
    one, on a store that files every habit under its own id, as every
    store the API reaches does. *)
Theorem C9_update_frame (s : store) habit_id habit update :
  keyed_by_id (habit_repo s) →
  habit_repo s !! habit_id = Some habit →
  ∃ new,
    updated_by update habit new ∧
    update_habit habit_id update s =
      (Ok new,
       mkHabitService (<[habit_id := new]> (habit_repo s)) (log_repo s)) ∧
    @update_habit _ _ SQLiteHabitRepository.inst habit_id update s =
      (Ok new,
       mkHabitService (<[habit_id := new]> (habit_repo s)) (log_repo s)).
Proof.
  intros Hkeys Hlook. exists (apply_update update habit).
  split; [apply apply_update_updated_by|].
  split; [by apply update_habit_in_memory|by apply update_habit_sqlite].
Qed.

(** C10, as the code has it.  When a habit lists among its sub-habits an
    id that is not in the store, deleting it never returns: it raises
    not-found, or [RecursionError] when the sub-habits listed earlier
    run into a cycle.  The habit itself stays in the store, nothing is
    added or changed, and nothing deleted is restored.  If the deletes of
    the sub-habits listed before the absent id all return, the delete
    raises not-found from the store they left, in which none of those
    sub-habits remains. *)
Theorem C10_dangling_subhabit (s : store) fuel habit_id habit pre ghost post :
  habit_repo s !! habit_id = Some habit →
  Habit.subhabit_ids habit = pre ++ ghost :: post →
  habit_repo s !! ghost = None →
  let r := (delete_habit (S (S fuel)) habit_id s).1 in
  let s' := (delete_habit (S (S fuel)) habit_id s).2 in
  (r = Raise not_found ∨ r = Raise RecursionError) ∧
  habit_repo s' !! habit_id = Some habit ∧
  shrinks s s' ∧
  (∀ s1, for_each (delete_habit (S fuel)) pre s = (Ok (), s1) →
         r = Raise not_found ∧ s' = s1 ∧
         ∀ c, c ∈ pre → habit_repo s' !! c = None).
Proof.
  intros Hlook Hsubs Hghost r s'.
  assert (ghost ∈ Habit.subhabit_ids habit) as Hin.
  { rewrite Hsubs. apply elem_of_app. right. left. }
  destruct (delete_habit (S (S fuel)) habit_id s) as [r0 s0] eqn:Hrun.
  subst r s'. cbn [fst snd].
  split; [|split; [|split]].
  - destruct r0 as [[]|e].
    + rewrite delete_habit_unfold, Hlook in Hrun.
      destruct (for_each _ _ s) as [[[]|e] s1] eqn:E; [|done].
      destruct (delete_each_ok _ _ _ _ E ghost Hin) as [[? ?] _]. congruence.
    + apply delete_habit_raises in Hrun as [->| ->]; [by left|by right].
  - by eapply delete_habit_keeps.
  - by eapply delete_habit_shrinks.
  - intros s1 Hpre.
    rewrite delete_habit_unfold, Hlook, Hsubs, for_each_app, Hpre in Hrun.
    cbn [for_each] in Hrun. unfold mbind, M_bind in Hrun.
    pose proof (delete_each_shrinks _ _ _ _ _ Hpre) as Hs1.
    rewrite delete_habit_unfold, (shrinks_absent _ _ _ Hs1 Hghost) in Hrun.
    injection Hrun as <- <-. split; [done|]. split; [done|].
    intros c Hc. by destruct (delete_each_ok _ _ _ _ Hpre c Hc).
Qed.

(** C7: the code at the failing inputs.  Two stores the API reaches
    break the linkage.  Creating a habit with a [parent_id] stores it
    whether or not that parent exists.  Deleting a sub-habit leaves its
    id in the parent's [subhabit_ids]; from then on every delete of the
    parent is answered 404 and changes nothing. *)
Theorem C7_linkage_not_maintained :
  api_reachable orphan_store ∧ ¬ parents_exist (habit_repo orphan_store) ∧
  api_reachable widowed_store ∧ ¬ subhabits_linked (habit_repo widowed_store) ∧
  controllers.delete_habit 1000 "p" widowed_store =
    (Raise (HTTPException 404 "Habit not found"), widowed_store).
Proof.
  split; [apply orphan_store_reachable|].
  split.
  { intros H.
    destruct (H "a" (Habit.mk "a" "Orphan" None None BOOLEAN None 0
                       (Some "ghost") []) "ghost") as [h Hh];
      [by vm_compute..|].
    vm_compute in Hh. discriminate. }
  split; [apply widowed_store_reachable|].
  split; [|by vm_compute].
  intros H.
  destruct (H "p" (Habit.mk "p" "Parent" None None BOOLEAN None 0 None ["c"])
              "c") as (hc & Hc & _); [by vm_compute|left|].
  vm_compute in Hc. discriminate.
Qed.

(** C10, as stated, fails on a store the API reaches: [h] lists [a]
    before the absent [g], the delete of [h] raises not-found, and [a]
    is still in the store, because the delete of [a] was the one that
    raised. *)
Lemma C10_earlier_subhabit_survives :
  api_reachable stranded_store ∧ ¬ C10_as_stated stranded_store 1000 "h".
Proof.
  split; [apply stranded_store_reachable|].
  intros H.
  destruct (H (Habit.mk "h" "H" None None BOOLEAN None 0 None ["a"; "g"])
              ["a"] "g" []) as (_ & Hgone & _); [by vm_compute..|].
  specialize (Hgone "a" ltac:(left)).
  vm_compute in Hgone. discriminate.
Qed.

(** C6, as stated, fails on a store the API reaches: [p] has the one
    sub-habit [c], and the sub-habit [g] of [c] was deleted.  The
    delete of [p] raises not-found from the delete of [c], the endpoint
    answers 404, and [p] and [c] are still in the store. *)
Lemma C6_parent_and_child_survive :
  api_reachable bereaved_store ∧
  Habit.subhabit_ids <$> get_habit "p" bereaved_store = Some ["c"] ∧
  Habit.subhabit_ids <$> get_habit "c" bereaved_store = Some ["g"] ∧
  get_habit "g" bereaved_store = None ∧
  delete_habit 1000 "p" bereaved_store = (Raise not_found, bereaved_store) ∧
  controllers.delete_habit 1000 "p" bereaved_store =
    http_404 "Habit not found" bereaved_store ∧
  ¬ C6_as_stated bereaved_store 1000 "p".
Proof.
  split; [apply bereaved_store_reachable|].
  do 5 (split; [by vm_compute|]).
  intros H.
  destruct (H (Habit.mk "p" "Parent" None None BOOLEAN None 0 None ["c"]) "c"
              (Habit.mk "c" "Child" None None BOOLEAN None 0 (Some "p") ["g"]))
    as [Hgone _]; [by vm_compute..|].
  vm_compute in Hgone. discriminate.
Qed.

(** C6 at the parent and leaf of [family_store]. *)
Lemma C6_cascading_delete_witness :
  habit_repo family_store !! "p" = Some family_parent ∧
  Habit.subhabit_ids family_parent = ["c"] ∧
  habit_repo family_store !! "c" = Some family_child ∧
  Habit.subhabit_ids family_child = [] ∧
  let s' := mkHabitService
              (delete "p" (delete "c" (habit_repo family_store)))
              (log_repo family_store) in
  delete_habit 2 "p" family_store = (Ok (), s') ∧
  get_habit "p" s' = None ∧ get_habit "c" s' = None.
Proof.
  assert (habit_repo family_store !! "p" = Some family_parent) as Hp
    by (vm_compute; reflexivity).
  assert (habit_repo family_store !! "c" = Some family_child) as Hc
    by (vm_compute; reflexivity).
  split; [exact Hp|]. split; [reflexivity|].
  split; [exact Hc|]. split; [reflexivity|].
  destruct (C6_cascading_delete family_store 0 "p" family_parent Hp)
    as (_ & _ & _ & Hscenario).
  exact (Hscenario "c" family_child eq_refl Hc eq_refl).
Defined.

(** C8 at the empty store. *)
Lemma C8_not_found_witness :
  habit_get "nonexistent-id" (habit_repo empty_store) = None ∧
  delete_habit 1 "nonexistent-id" empty_store = (Raise not_found, empty_store) ∧
  get_habit "nonexistent-id" empty_store = None.
Proof.
  assert (habit_get "nonexistent-id" (habit_repo empty_store) = None) as Habsent
    by reflexivity.
  split; [exact Habsent|].
  destruct (C8_not_found empty_store "nonexistent-id" Habsent)
    as (_ & Hdelete & _ & _ & _ & _ & Hget).
  split; [apply Hdelete|apply Hget].
Defined.

(** C9 at the parent of [family_store], renamed. *)
Lemma C9_update_frame_witness :
  keyed_by_id (habit_repo family_store) ∧
  habit_repo family_store !! "p" = Some family_parent ∧
  ∃ new,
    updated_by rename family_parent new ∧
    update_habit "p" rename family_store =
      (Ok new,
       mkHabitService (<["p" := new]> (habit_repo family_store))
         (log_repo family_store)).
Proof.
  assert (keyed_by_id (habit_repo family_store)) as Hkeys.
  { apply (bool_decide_unpack _). vm_compute. exact I. }
  assert (habit_repo family_store !! "p" = Some family_parent) as Hp
    by (vm_compute; reflexivity).
  split; [exact Hkeys|]. split; [exact Hp|].
  destruct (C9_update_frame family_store "p" family_parent rename Hkeys Hp)
    as (new & Hfields & Hmemory & _).
  exists new. split; [exact Hfields|exact Hmemory].
Defined.

(** C10 at [dangling_store], where the leaf [a] comes before the absent
    [g]. *)
Lemma C10_dangling_subhabit_witness :
  habit_repo dangling_store !! "h" = Some dangling_parent ∧
  Habit.subhabit_ids dangling_parent = ["a"] ++ "g" :: [] ∧
  habit_repo dangling_store !! "g" = None ∧
  (delete_habit 2 "h" dangling_store).1 = Raise not_found ∧
  habit_repo (delete_habit 2 "h" dangling_store).2 !! "a" = None ∧
  habit_repo (delete_habit 2 "h" dangling_store).2 !! "h" = Some dangling_parent.
Proof.
  assert (habit_repo dangling_store !! "h" = Some dangling_parent) as Hh
    by (vm_compute; reflexivity).
  assert (habit_repo dangling_store !! "g" = None) as Hg
    by (vm_compute; reflexivity).
  split; [exact Hh|]. split; [reflexivity|]. split; [exact Hg|].
  destruct (C10_dangling_subhabit dangling_store 0 "h" dangling_parent
              ["a"] "g" [] Hh eq_refl Hg)
    as (_ & Hkept & _ & Hpre).
  destruct (Hpre (exec (for_each (delete_habit 1) ["a"]) dangling_store))
    as (Hraise & _ & Hgone); [vm_compute; reflexivity|].
  split; [exact Hraise|]. split; [|exact Hkept].
  apply Hgone. left.
Defined.

(** * Further properties of the code *)

(** ** The window filter *)

Lemma filter_logs_as_filter logs start end_ :
  _filter_logs_by_date logs start end_ =
  filter (λ log, in_window start end_ (LogEntry.date log)) logs.
Proof.
  unfold _filter_logs_by_date, in_window.
  destruct start as [s|], end_ as [e|].
  - rewrite list_filter_filter. apply list_filter_iff. intros log. lia.
  - apply list_filter_iff. intros log. intuition lia.
  - apply list_filter_iff. intros log. intuition lia.
  - induction logs as [|x l IH]; [done|].
    rewrite filter_cons_True by done. by f_equal.
Qed.

(** X1.  [_filter_logs_by_date] keeps exactly the entries whose date is
    in the window, in their order; without bounds it returns the list
    as it is; filtering a second time with the same window changes
    nothing. *)
Theorem filter_logs_by_date_idempotent logs start end_ :
  _filter_logs_by_date logs start end_ =
    filter (λ log, in_window start end_ (LogEntry.date log)) logs ∧
  _filter_logs_by_date logs None None = logs ∧
  _filter_logs_by_date (_filter_logs_by_date logs start end_) start end_ =
    _filter_logs_by_date logs start end_ ∧
  sublist (_filter_logs_by_date logs start end_) logs.
Proof.
  split; [apply filter_logs_as_filter|]. split; [done|]. split.
  - rewrite !filter_logs_as_filter, list_filter_filter.
    apply list_filter_iff. tauto.
  - rewrite filter_logs_as_filter. apply sublist_filter.
Qed.

(** ** Streaks are determined by their characterisation *)

Lemma current_streak_unique today (X : gset Z) k :
  (∀ i : nat, i < k → (today - Z.of_nat i)%Z ∈ X) →
  (today - Z.of_nat k)%Z ∉ X →
  (_calculate_streaks today X).1 = k.
Proof.
  intros Hrun Hstop.
  destruct (calculate_streaks_spec today X) as (Hrun' & Hstop' & _).
  set (c := (_calculate_streaks today X).1) in *.
  destruct (Nat.lt_trichotomy c k) as [Hlt|[Heq|Hgt]]; [|done|].
  - exfalso. apply Hstop'. by apply Hrun.
  - exfalso. apply Hstop. by apply Hrun'.
Qed.

Lemma longest_streak_unique today (X : gset Z) l :
  (∃ d, run X d l) → (∀ d k, run X d k → k ≤ l) →
  (_calculate_streaks today X).2 = l.
Proof.
  intros [d Hd] Hmax.
  destruct (calculate_streaks_spec today X) as (_ & _ & _ & [d' Hd'] & Hmax').
  apply Nat.le_antisymm; [by eapply Hmax|by eapply Hmax'].
Qed.

Lemma run_size (X : gset Z) d k : run X d k → k ≤ size X.
Proof.
  intros Hr. apply (days_back_size X (d + Z.of_nat k - 1)%Z).
  intros i Hi.
  replace (d + Z.of_nat k - 1 - Z.of_nat i)%Z
    with (d + Z.of_nat (k - 1 - i))%Z by lia.
  apply Hr. lia.
Qed.

(** X2.  The current streak is 0 exactly when today is not completed;
    the longest streak is 0 exactly when no date is completed; the
    longest streak never exceeds the number of completed dates. *)
Theorem streaks_zero_and_bound today (X : gset Z) :
  ((_calculate_streaks today X).1 = 0 ↔ today ∉ X) ∧
  ((_calculate_streaks today X).2 = 0 ↔ X = ∅) ∧
  (_calculate_streaks today X).2 ≤ size X.
Proof.
  destruct (calculate_streaks_spec today X)
    as (Hrun & Hstop & _ & [d Hd] & Hmax).
  split; [|split].
  - split.
    + intros H0. rewrite H0 in Hstop.
      by replace (today - Z.of_nat 0)%Z with today in Hstop by lia.
    + intros Hout. apply current_streak_unique; [intros; lia|].
      by replace (today - Z.of_nat 0)%Z with today by lia.
  - split.
    + intros H0. apply set_eq. intros x. split; [|intros []%not_elem_of_empty].
      intros Hx. assert (run X x 1) as Hr.
      { intros i Hi. by replace (x + Z.of_nat i)%Z with x by lia. }
      apply Hmax in Hr. lia.
    + intros ->. done.
  - by eapply run_size.
Qed.

Lemma calculate_streaks_subseteq today (X Y : gset Z) :
  X ⊆ Y →
  (_calculate_streaks today X).1 ≤ (_calculate_streaks today Y).1 ∧
  (_calculate_streaks today X).2 ≤ (_calculate_streaks today Y).2.
Proof.
  intros Hsub.
  destruct (calculate_streaks_spec today X) as (HrunX & _ & _ & [d Hd] & _).
  destruct (calculate_streaks_spec today Y) as (_ & HstopY & _ & _ & HmaxY).
  split.
  - destruct (decide ((_calculate_streaks today X).1 ≤
                      (_calculate_streaks today Y).1)) as [|Hgt]; [done|].
    exfalso. apply HstopY, Hsub, HrunX. lia.
  - apply (HmaxY d). by eapply run_mono.
Qed.

(** X3.  Completing more dates never shortens a streak: if every date of
    one set is in another, the current and the longest streak of the
    first are at most those of the second. *)
Theorem streaks_monotone today (X Y : gset Z) :
  X ⊆ Y →
  (_calculate_streaks today X).1 ≤ (_calculate_streaks today Y).1 ∧
  (_calculate_streaks today X).2 ≤ (_calculate_streaks today Y).2.
Proof. apply calculate_streaks_subseteq. Qed.

(** X4.  Streaks depend only on the position of the completed dates
    relative to today: moving today and every completed date by the
    same number of days leaves both streaks as they were. *)
Theorem streaks_shift_invariant today (X : gset Z) k :
  _calculate_streaks (today + k) (shift_dates k X) = _calculate_streaks today X.
Proof.
  assert (∀ x, x ∈ shift_dates k X ↔ (x - k)%Z ∈ X) as Hshift.
  { intros x. unfold shift_dates. rewrite elem_of_map. split.
    - intros (y & -> & Hy). by replace (y + k - k)%Z with y by lia.
    - intros Hx. exists (x - k)%Z. split; [lia|done]. }
  destruct (calculate_streaks_spec today X)
    as (Hrun & Hstop & _ & [d Hd] & Hmax).
  apply injective_projections.
  - apply current_streak_unique.
    + intros i Hi. apply Hshift.
      replace (today + k - Z.of_nat i - k)%Z with (today - Z.of_nat i)%Z by lia.
      by apply Hrun.
    + rewrite Hshift.
      by replace (today + k - Z.of_nat (_calculate_streaks today X).1 - k)%Z
        with (today - Z.of_nat (_calculate_streaks today X).1)%Z by lia.
  - apply longest_streak_unique.
    + exists (d + k)%Z. intros i Hi. apply Hshift.
      replace (d + k + Z.of_nat i - k)%Z with (d + Z.of_nat i)%Z by lia.
      by apply Hd.
    + intros d' k' Hr. apply (Hmax (d' - k)%Z). intros i Hi.
      replace (d' - k + Z.of_nat i)%Z with (d' + Z.of_nat i - k)%Z by lia.
      apply Hshift. by apply Hr.
Qed.

(** ** The two calculators *)

Lemma len_or_zero_length l : len_or_zero l = length l.
Proof. by destruct l. Qed.

Lemma boolean_completed_elem goal l d :
  d ∈ BooleanStatisticsCalculator.completed l ↔
  ∃ log, log ∈ l ∧ LogEntry.date log = d ∧ completes BOOLEAN goal log.
Proof.
  unfold BooleanStatisticsCalculator.completed.
  rewrite (boolean_completed_foldl goal).
  split; [intros [Hin|?]; [by apply not_elem_of_empty in Hin|done]|by right].
Qed.

Lemma numeric_completed_elem goal l d :
  d ∈ (NumericStatisticsCalculator.scan goal l).1 ↔
  ∃ log, log ∈ l ∧ LogEntry.date log = d ∧ completes NUMERIC goal log.
Proof.
  unfold NumericStatisticsCalculator.scan.
  rewrite numeric_scan_foldl_fst. simpl.
  split; [intros [Hin|?]; [by apply not_elem_of_empty in Hin|done]|by right].
Qed.

Lemma numeric_values goal l :
  (NumericStatisticsCalculator.scan goal l).2 = omap LogEntry.value l.
Proof.
  unfold NumericStatisticsCalculator.scan.
  by rewrite numeric_scan_foldl_snd.
Qed.

Lemma boolean_completed_le_length l :
  size (BooleanStatisticsCalculator.completed l) ≤ length l.
Proof.
  pose proof (boolean_completed_size l ∅) as Hsz.
  by rewrite size_empty in Hsz.
Qed.

Lemma numeric_completed_le_length goal l :
  size (NumericStatisticsCalculator.scan goal l).1 ≤ length l.
Proof.
  pose proof (numeric_completed_size goal l (∅, [])) as Hsz.
  simpl in Hsz. by rewrite ?size_empty in Hsz.
Qed.

Lemma filter_logs_by_date_length logs start end_ :
  length (_filter_logs_by_date logs start end_) ≤ length logs.
Proof. rewrite filter_logs_as_filter. apply length_filter. Qed.

Lemma longest_le_size today (X : gset Z) :
  (_calculate_streaks today X).2 ≤ size X.
Proof.
  destruct (calculate_streaks_spec today X) as (_ & _ & _ & [d Hd] & _).
  by eapply run_size.
Qed.

(** X5.  In every result of either calculator,
    [current_streak ≤ longest_streak ≤ total_completions ≤
    total_days_tracked ≤ len(logs)]. *)
Theorem statistics_counts_ordered today habit logs start end_ :
  counts_ordered
    (BooleanStatisticsCalculator.calculate today habit logs start end_) logs ∧
  counts_ordered
    (NumericStatisticsCalculator.calculate today habit logs start end_) logs.
Proof.
  destruct (boolean_calculate_fields today habit logs start end_)
    as (Hbc & Hbl & Hbt & Hbd & _).
  destruct (numeric_calculate_fields today habit logs start end_)
    as (Hnc & Hnl & Hnt & Hnd & _).
  simpl in *. unfold counts_ordered.
  rewrite Hbc, Hbl, Hbt, Hbd, Hnc, Hnl, Hnt, Hnd.
  pose proof (filter_logs_by_date_length logs start end_).
  split; (split; [apply current_le_longest|]);
    (split; [apply longest_le_size|]); (split; [|done]).
  - apply boolean_completed_le_length.
  - apply numeric_completed_le_length.
Qed.

Lemma filter_logs_nil logs start end_ :
  (∀ log, log ∈ logs → ¬ in_window start end_ (LogEntry.date log)) →
  _filter_logs_by_date logs start end_ = [].
Proof.
  intros Hout. rewrite filter_logs_as_filter.
  induction logs as [|x l IH]; [done|].
  rewrite filter_cons_False by (apply Hout; left).
  apply IH. intros log Hin. apply Hout. by right.
Qed.

(** X6.  When no entry falls inside the window, and so for an empty log
    list, both calculators return zero streaks, zero completions, rate
    0, no average and zero tracked days. *)
Theorem statistics_of_empty_window today habit logs start end_ :
  (∀ log, log ∈ logs → ¬ in_window start end_ (LogEntry.date log)) →
  BooleanStatisticsCalculator.calculate today habit logs start end_ =
    no_statistics ∧
  NumericStatisticsCalculator.calculate today habit logs start end_ =
    no_statistics.
Proof.
  intros Hout.
  unfold BooleanStatisticsCalculator.calculate,
    NumericStatisticsCalculator.calculate.
  by rewrite (filter_logs_nil logs start end_ Hout).
Qed.

Lemma boolean_completed_ext (goal : option Q) l l' :
  (∀ log, log ∈ l ↔ log ∈ l') →
  BooleanStatisticsCalculator.completed l =
  BooleanStatisticsCalculator.completed l'.
Proof.
  intros Hsame. apply set_eq. intros d.
  rewrite !(boolean_completed_elem goal).
  split; intros (log & Hin & Hrest); exists log; (split; [|done]);
    by apply Hsame.
Qed.

Lemma numeric_completed_ext goal l l' :
  (∀ log, log ∈ l ↔ log ∈ l') →
  (NumericStatisticsCalculator.scan goal l).1 =
  (NumericStatisticsCalculator.scan goal l').1.
Proof.
  intros Hsame. apply set_eq. intros d.
  rewrite !numeric_completed_elem.
  split; intros (log & Hin & Hrest); exists log; (split; [|done]);
    by apply Hsame.
Qed.

(** The results depend on the logs only through the entries the window
    keeps; their order matters to the value of the average alone. *)
Lemma calculate_same_entries today habit logs logs' start end_ :
  _filter_logs_by_date logs start end_ ≡ₚ
    _filter_logs_by_date logs' start end_ →
  BooleanStatisticsCalculator.calculate today habit logs start end_ =
    BooleanStatisticsCalculator.calculate today habit logs' start end_ ∧
  same_counts
    (NumericStatisticsCalculator.calculate today habit logs start end_)
    (NumericStatisticsCalculator.calculate today habit logs' start end_).
Proof.
  intros Hfiltered.
  assert (∀ log, log ∈ _filter_logs_by_date logs start end_ ↔
                 log ∈ _filter_logs_by_date logs' start end_) as Hsame.
  { intros log. by rewrite Hfiltered. }
  pose proof (Permutation_length Hfiltered) as Hlen.
  split.
  - unfold BooleanStatisticsCalculator.calculate.
    by rewrite (boolean_completed_ext None _ _ Hsame),
       !len_or_zero_length, Hlen.
  - destruct (numeric_calculate_fields today habit logs start end_)
      as (Hc & Hl & Ht & Hd & Hr & Ha).
    destruct (numeric_calculate_fields today habit logs' start end_)
      as (Hc' & Hl' & Ht' & Hd' & Hr' & Ha').
    simpl in *. unfold same_counts.
    rewrite Hc, Hl, Ht, Hd, Hr, Ha, Hc', Hl', Ht', Hd', Hr', Ha'.
    rewrite (numeric_completed_ext _ _ _ Hsame), Hlen.
    repeat (split; [done|]).
    rewrite !numeric_values.
    assert (omap LogEntry.value (_filter_logs_by_date logs start end_) ≡ₚ
            omap LogEntry.value (_filter_logs_by_date logs' start end_))
      as Hvalues by by rewrite Hfiltered.
    pose proof (Permutation_length Hvalues) as Hvlen.
    by destruct (omap LogEntry.value (_filter_logs_by_date logs start end_)),
      (omap LogEntry.value (_filter_logs_by_date logs' start end_)).
Qed.

(** X7.  The streaks, the completions, the rate and the tracked days do
    not depend on the order of the log entries: for two lists with the
    same entries the boolean results are equal, and the numeric results
    agree in every field but the value of the average, which both have
    or both lack.  The average does depend on the order: the values
    [1e308], [1e308], [-1e308] give an infinite average in this order,
    and a third of [1e308] when the negative one comes first. *)
Theorem statistics_order_independent today habit logs logs' start end_ :
  logs ≡ₚ logs' →
  BooleanStatisticsCalculator.calculate today habit logs start end_ =
    BooleanStatisticsCalculator.calculate today habit logs' start end_ ∧
  same_counts
    (NumericStatisticsCalculator.calculate today habit logs start end_)
    (NumericStatisticsCalculator.calculate today habit logs' start end_) ∧
  average_value
    (NumericStatisticsCalculator.calculate historical_today reading_habit
       (overflow_logs ++ [negative_log]) None None) = Some float.inf ∧
  average_value
    (NumericStatisticsCalculator.calculate historical_today reading_habit
       (negative_log :: overflow_logs) None None) =
    Some (S754_finite false 6680561200029909 969).
Proof.
  intros Hperm.
  destruct (calculate_same_entries today habit logs logs' start end_)
    as [Hboolean Hnumeric].
  { rewrite !filter_logs_as_filter. by rewrite Hperm. }
  split; [exact Hboolean|]. split; [exact Hnumeric|]. by vm_compute.
Qed.

Lemma numeric_goal_1_is_boolean l st :
  (foldl (NumericStatisticsCalculator.collect (Some 1%Q)) st l).1 =
  foldl BooleanStatisticsCalculator.collect st.1 l.
Proof.
  revert st. induction l as [|x l IH]; intros st; [done|].
  simpl. rewrite IH. f_equal.
  unfold NumericStatisticsCalculator.collect,
    BooleanStatisticsCalculator.collect.
  destruct st as [acc vs]. destruct (LogEntry.value x) as [v|]; [|done].
  by destruct (Qle_bool 1 v).
Qed.

(** X8.  The boolean calculator is the numeric calculator with goal 1
    without the average: on the same logs and window the two results
    have the same streaks, completions, rate and tracked days. *)
Theorem boolean_is_numeric_with_goal_1 today habit logs start end_ :
  let b := BooleanStatisticsCalculator.calculate today habit logs start end_ in
  let n :=
    NumericStatisticsCalculator.calculate today
      (Habit.set_goal (Some 1%Q) habit) logs start end_ in
  current_streak b = current_streak n ∧
  longest_streak b = longest_streak n ∧
  total_completions b = total_completions n ∧
  completion_rate b = completion_rate n ∧
  total_days_tracked b = total_days_tracked n ∧
  average_value b = None.
Proof.
  destruct (boolean_calculate_fields today habit logs start end_)
    as (Hc & Hl & Ht & Hd & Hr & Ha).
  destruct (numeric_calculate_fields today (Habit.set_goal (Some 1%Q) habit)
              logs start end_) as (Hc' & Hl' & Ht' & Hd' & Hr' & _).
  simpl in *. rewrite Hc, Hl, Ht, Hd, Hr, Ha, Hc', Hl', Ht', Hd', Hr'.
  unfold NumericStatisticsCalculator.scan.
  rewrite numeric_goal_1_is_boolean. simpl.
  by fold (BooleanStatisticsCalculator.completed
             (_filter_logs_by_date logs start end_)).
Qed.

Lemma rate_monotone c c' d : c' ≤ c → (rate c' d <= rate c d)%Q.
Proof.
  intros Hle. unfold rate. destruct (0 <? d) eqn:E; [|apply Qle_refl].
  apply Nat.ltb_lt in E. unfold Qdiv.
  apply Qmult_le_compat_r.
  - rewrite <- Zle_Qle. lia.
  - apply Qinv_le_0_compat. rewrite <- (Zle_Qle 0). lia.
Qed.

(** A stricter completion rule for the numeric calculator counts less. *)
Lemma numeric_stricter_rule today habit goal goal' logs start end_ :
  (∀ log, completes NUMERIC goal' log → completes NUMERIC goal log) →
  fewer_completions
    (NumericStatisticsCalculator.calculate today
       (Habit.set_goal goal' habit) logs start end_)
    (NumericStatisticsCalculator.calculate today
       (Habit.set_goal goal habit) logs start end_).
Proof.
  intros Hrule.
  destruct (numeric_calculate_fields today (Habit.set_goal goal habit)
              logs start end_) as (Hc & Hl & Ht & Hd & Hr & Ha).
  destruct (numeric_calculate_fields today (Habit.set_goal goal' habit)
              logs start end_) as (Hc' & Hl' & Ht' & Hd' & Hr' & Ha').
  simpl in *. unfold fewer_completions.
  rewrite Hc, Hl, Ht, Hd, Hr, Ha, Hc', Hl', Ht', Hd', Hr', Ha'.
  set (filtered := _filter_logs_by_date logs start end_).
  assert ((NumericStatisticsCalculator.scan goal' filtered).1 ⊆
          (NumericStatisticsCalculator.scan goal filtered).1) as Hsub.
  { intros d. rewrite !numeric_completed_elem.
    intros (log & Hin & Hd0 & Hok). exists log. eauto. }
  destruct (calculate_streaks_subseteq today _ _ Hsub) as [Hcur Hlong].
  pose proof (subseteq_size _ _ Hsub) as Hsize.
  split; [done|]. split; [done|]. split; [done|].
  split; [by apply rate_monotone|]. split; [done|].
  by rewrite !numeric_values.
Qed.

(** X9.  Raising the goal of a numeric habit never adds a completion:
    with goals [g ≤ g'], the result for [g'] has streaks, completions
    and rate at most those for [g], and the same tracked days and
    average.  The same holds between a positive goal and no goal. *)
Theorem raising_goal_counts_less today habit (g g' : Q) logs start end_ :
  (g <= g')%Q →
  fewer_completions
    (NumericStatisticsCalculator.calculate today
       (Habit.set_goal (Some g') habit) logs start end_)
    (NumericStatisticsCalculator.calculate today
       (Habit.set_goal (Some g) habit) logs start end_) ∧
  ((0 < g)%Q →
   fewer_completions
     (NumericStatisticsCalculator.calculate today
        (Habit.set_goal (Some g) habit) logs start end_)
     (NumericStatisticsCalculator.calculate today
        (Habit.set_goal None habit) logs start end_)).
Proof.
  intros Hle. split.
  - apply numeric_stricter_rule. intros log. unfold completes.
    destruct (LogEntry.value log) as [v|]; [|done].
    intros Hv. by eapply Qle_trans.
  - intros Hpos. apply numeric_stricter_rule. intros log. unfold completes.
    destruct (LogEntry.value log) as [v|]; [|done].
    intros Hv. by eapply Qlt_le_trans.
Qed.

(** X10.  Narrowing the window never adds anything: if every date of one
    window is in another, the result over the narrower one has tracked
    days, completions and streaks at most those over the wider one. *)
Theorem narrowing_window_counts_less today habit logs start end_ start' end_' :
  (∀ d, in_window start' end_' d → in_window start end_ d) →
  let below (r' r : StatisticsResult) :=
    total_days_tracked r' ≤ total_days_tracked r ∧
    total_completions r' ≤ total_completions r ∧
    current_streak r' ≤ current_streak r ∧
    longest_streak r' ≤ longest_streak r in
  below (BooleanStatisticsCalculator.calculate today habit logs start' end_')
        (BooleanStatisticsCalculator.calculate today habit logs start end_) ∧
  below (NumericStatisticsCalculator.calculate today habit logs start' end_')
        (NumericStatisticsCalculator.calculate today habit logs start end_).
Proof.
  intros Hnarrow below.
  set (filtered := _filter_logs_by_date logs start end_).
  set (filtered' := _filter_logs_by_date logs start' end_').
  assert (length filtered' ≤ length filtered) as Hlen.
  { unfold filtered, filtered'. rewrite !filter_logs_as_filter.
    rewrite <- (list_filter_filter_l
      (λ log, in_window start' end_' (LogEntry.date log))
      (λ log, in_window start end_ (LogEntry.date log))) by (intros; eauto).
    apply length_filter. }
  assert (∀ log, log ∈ filtered' → log ∈ filtered) as Hin.
  { intros log. unfold filtered, filtered'. rewrite !filter_logs_spec.
    intros [? ?]. eauto. }
  destruct (boolean_calculate_fields today habit logs start end_)
    as (Hc & Hl & Ht & Hd & _).
  destruct (boolean_calculate_fields today habit logs start' end_')
    as (Hc' & Hl' & Ht' & Hd' & _).
  destruct (numeric_calculate_fields today habit logs start end_)
    as (Gc & Gl & Gt & Gd & _).
  destruct (numeric_calculate_fields today habit logs start' end_')
    as (Gc' & Gl' & Gt' & Gd' & _).
  simpl in *. unfold below.
  rewrite Hc, Hl, Ht, Hd, Hc', Hl', Ht', Hd'.
  rewrite Gc, Gl, Gt, Gd, Gc', Gl', Gt', Gd'.
  fold filtered filtered'.
  assert (BooleanStatisticsCalculator.completed filtered' ⊆
          BooleanStatisticsCalculator.completed filtered) as Hb.
  { intros d. rewrite !(boolean_completed_elem None).
    intros (log & ? & ? & ?). exists log. eauto. }
  assert ((NumericStatisticsCalculator.scan (Habit.goal habit) filtered').1 ⊆
          (NumericStatisticsCalculator.scan (Habit.goal habit) filtered).1)
    as Hn.
  { intros d. rewrite !numeric_completed_elem.
    intros (log & ? & ? & ?). exists log. eauto. }
  destruct (calculate_streaks_subseteq today _ _ Hb) as [? ?].
  destruct (calculate_streaks_subseteq today _ _ Hn) as [? ?].
  pose proof (subseteq_size _ _ Hb). pose proof (subseteq_size _ _ Hn).
  done.
Qed.

(** ** The calculator factory *)

(** X11.  A registered calculator is the one [get_calculator] returns
    for its habit type, replacing any earlier one, and the one
    [get_statistics] runs on the sorted entries of a habit of that
    type; the other types keep theirs.  The built-in table gives the
    boolean calculator for [BOOLEAN] and the numeric one for [NUMERIC].
    A type without calculator raises [ValueError] with a message that
    ends with the habit type; [get_statistics] on a habit of such a type
    raises it from the unchanged store, and the stats endpoint answers
    404 with the same message. *)
Theorem factory_register_then_get
    (table : HabitType → option StatisticsCalculatorFactory.calculator)
    ty c :
  StatisticsCalculatorFactory.get_calculator
    (StatisticsCalculatorFactory.register_calculator table ty c) ty = Ok c ∧
  (∀ ty', ty' ≠ ty →
     StatisticsCalculatorFactory.get_calculator
       (StatisticsCalculatorFactory.register_calculator table ty c) ty' =
     StatisticsCalculatorFactory.get_calculator table ty') ∧
  (∀ (s : store) today habit_id habit start end_,
     habit_repo s !! habit_id = Some habit →
     Habit.type habit = ty →
     get_statistics
       (StatisticsCalculatorFactory.register_calculator table ty c)
       today habit_id start end_ s =
     (Ok (habit_id,
          c today habit
            (InMemoryLogRepository.list_for_habit habit_id start end_
               (log_repo s))
            start end_), s)) ∧
  StatisticsCalculatorFactory.get_calculator
    StatisticsCalculatorFactory._calculators BOOLEAN =
    Ok BooleanStatisticsCalculator.calculate ∧
  StatisticsCalculatorFactory.get_calculator
    StatisticsCalculatorFactory._calculators NUMERIC =
    Ok NumericStatisticsCalculator.calculate ∧
  (table BOOLEAN = None →
   StatisticsCalculatorFactory.get_calculator table BOOLEAN =
     Raise (ValueError
              "No calculator found for habit type: HabitType.BOOLEAN")) ∧
  (table NUMERIC = None →
   StatisticsCalculatorFactory.get_calculator table NUMERIC =
     Raise (ValueError
              "No calculator found for habit type: HabitType.NUMERIC")) ∧
  (∀ (s : store) today habit_id habit start end_,
     habit_repo s !! habit_id = Some habit →
     table (Habit.type habit) = None →
     let msg :=
       ("No calculator found for habit type: " ++
        StatisticsCalculatorFactory.format_habit_type (Habit.type habit))%string
     in
     get_statistics table today habit_id start end_ s =
       (Raise (ValueError msg), s) ∧
     controllers.get_stats table today habit_id start end_ s =
       http_404 msg s).
Proof.
  split; [|split; [|split]].
  - unfold StatisticsCalculatorFactory.get_calculator,
      StatisticsCalculatorFactory.register_calculator.
    by rewrite decide_True.
  - intros ty' Hne.
    unfold StatisticsCalculatorFactory.get_calculator,
      StatisticsCalculatorFactory.register_calculator.
    by rewrite decide_False.
  - intros s today habit_id habit start end_ Hlook Hty.
    unfold get_statistics. simpl. unfold InMemoryHabitRepository.get.
    rewrite Hlook, Hty.
    unfold StatisticsCalculatorFactory.get_calculator,
      StatisticsCalculatorFactory.register_calculator.
    by rewrite decide_True.
  - split; [done|]. split; [done|].
    split;
      [unfold StatisticsCalculatorFactory.get_calculator; by intros ->|].
    split;
      [unfold StatisticsCalculatorFactory.get_calculator; by intros ->|].
    intros s today habit_id habit start end_ Hlook Hnone msg.
    split.
    + unfold get_statistics. simpl. unfold InMemoryHabitRepository.get.
      rewrite Hlook.
      unfold StatisticsCalculatorFactory.get_calculator. by rewrite Hnone.
    + unfold controllers.get_stats, controllers.except_ValueError,
        get_statistics. simpl. unfold InMemoryHabitRepository.get.
      rewrite Hlook.
      unfold StatisticsCalculatorFactory.get_calculator. by rewrite Hnone.
Qed.

(** ** The in-memory and SQLite habit repositories *)

(** X12.  The in-memory habit repository: [add] never raises and files
    the habit under its id, replacing a habit already there; [update]
    raises [KeyError] and changes nothing when the id is unknown, and is
    [add] otherwise; [delete] removes the id, leaves the others and
    accepts an unknown id without effect; [list] returns the stored
    habits, one per id. *)
Theorem in_memory_habit_repository_contract
    (s : gmap string Habit.t) habit habit_id :
  InMemoryHabitRepository.add habit s = (Ok (), <[Habit.id habit := habit]> s) ∧
  InMemoryHabitRepository.get (Habit.id habit)
    (InMemoryHabitRepository.add habit s).2 = Some habit ∧
  (∀ k, k ≠ Habit.id habit →
     InMemoryHabitRepository.get k (InMemoryHabitRepository.add habit s).2 =
     InMemoryHabitRepository.get k s) ∧
  (InMemoryHabitRepository.get (Habit.id habit) s = None →
   InMemoryHabitRepository.update habit s =
     (Raise (KeyError "Habit not found"), s)) ∧
  (is_Some (InMemoryHabitRepository.get (Habit.id habit) s) →
   InMemoryHabitRepository.update habit s = InMemoryHabitRepository.add habit s) ∧
  InMemoryHabitRepository.get habit_id
    (InMemoryHabitRepository.delete habit_id s) = None ∧
  (∀ k, k ≠ habit_id →
     InMemoryHabitRepository.get k (InMemoryHabitRepository.delete habit_id s) =
     InMemoryHabitRepository.get k s) ∧
  (InMemoryHabitRepository.get habit_id s = None →
   InMemoryHabitRepository.delete habit_id s = s) ∧
  (∀ h, h ∈ InMemoryHabitRepository.list s ↔
        ∃ k, InMemoryHabitRepository.get k s = Some h) ∧
  length (InMemoryHabitRepository.list s) = size s.
Proof.
  unfold InMemoryHabitRepository.add, InMemoryHabitRepository.get,
    InMemoryHabitRepository.update, InMemoryHabitRepository.delete,
    InMemoryHabitRepository.list.
  simpl.
  split; [done|]. split; [apply lookup_insert_eq|].
  split; [by intros k Hne; rewrite lookup_insert_ne|].
  split; [by intros ->|].
  split; [by intros [h ->]|].
  split; [apply lookup_delete_eq|].
  split; [by intros k Hne; rewrite lookup_delete_ne|].
  split; [apply delete_id|].
  split.
  - intros h. rewrite list_elem_of_fmap. split.
    + intros ([k h'] & -> & Hin). exists k. by apply elem_of_map_to_list.
    + intros [k Hk]. exists (k, h). split; [done|].
      by apply elem_of_map_to_list.
  - by rewrite length_fmap, length_map_to_list.
Qed.

(** X13.  The SQLite habits table: [add] refuses an id that is already
    a primary key with [IntegrityError] and changes nothing, where the
    in-memory repository replaces; [update] raises [KeyError] on an
    unknown id; on a known id it writes name, description, category,
    goal and subhabit_ids and never changes the id, type, created_at or
    parent_id of the row, whatever the object passed holds. *)
Theorem sqlite_habit_repository_contract (s : gmap string Habit.t) habit :
  (s !! Habit.id habit = None →
   SQLiteHabitRepository.add habit s = (Ok (), <[Habit.id habit := habit]> s)) ∧
  (is_Some (s !! Habit.id habit) →
   SQLiteHabitRepository.add habit s = (Raise IntegrityError, s)) ∧
  (s !! Habit.id habit = None →
   SQLiteHabitRepository.update habit s =
     (Raise (KeyError "Habit not found"), s)) ∧
  (∀ row, s !! Habit.id habit = Some row →
     ∃ row',
       SQLiteHabitRepository.update habit s =
         (Ok (), <[Habit.id habit := row']> s) ∧
       Habit.name row' = Habit.name habit ∧
       Habit.description row' = Habit.description habit ∧
       Habit.category row' = Habit.category habit ∧
       Habit.goal row' = Habit.goal habit ∧
       Habit.subhabit_ids row' = Habit.subhabit_ids habit ∧
       Habit.id row' = Habit.id row ∧
       Habit.type row' = Habit.type row ∧
       Habit.created_at row' = Habit.created_at row ∧
       Habit.parent_id row' = Habit.parent_id row).
Proof.
  unfold SQLiteHabitRepository.add, SQLiteHabitRepository.update.
  split; [by intros ->|]. split; [by intros [row ->]|].
  split; [by intros ->|].
  intros row ->. eexists. split; [done|]. by destruct row.
Qed.

(** ** The in-memory log repository *)

Lemma insert_by_date_Permutation x l :
  InMemoryLogRepository.insert_by_date x l ≡ₚ x :: l.
Proof.
  induction l as [|y l IH]; [done|]. simpl.
  destruct (decide (InMemoryLogRepository.by_date x y)); [done|].
  rewrite IH. apply Permutation_swap.
Qed.

Lemma sorted_by_date_Permutation l :
  InMemoryLogRepository.sorted_by_date l ≡ₚ l.
Proof.
  induction l as [|x l IH]; [done|]. simpl.
  by rewrite insert_by_date_Permutation, IH.
Qed.

Lemma insert_by_date_sorted x l :
  StronglySorted InMemoryLogRepository.by_date l →
  StronglySorted InMemoryLogRepository.by_date
    (InMemoryLogRepository.insert_by_date x l).
Proof.
  induction 1 as [|y l Hsort IH Hall]; simpl; [repeat constructor|].
  destruct (decide (InMemoryLogRepository.by_date x y)) as [Hxy|Hxy].
  - constructor; [by constructor|]. constructor; [done|].
    eapply Forall_impl; [exact Hall|].
    unfold InMemoryLogRepository.by_date in *. intros z Hz. lia.
  - constructor; [done|].
    rewrite insert_by_date_Permutation. constructor; [|done].
    unfold InMemoryLogRepository.by_date in *. lia.
Qed.

Lemma sorted_by_date_sorted l :
  StronglySorted InMemoryLogRepository.by_date
    (InMemoryLogRepository.sorted_by_date l).
Proof.
  induction l as [|x l IH]; simpl; [constructor|].
  by apply insert_by_date_sorted.
Qed.

Lemma insert_by_date_stable d x l :
  filter (λ log, LogEntry.date log = d)
    (InMemoryLogRepository.insert_by_date x l) =
  filter (λ log, LogEntry.date log = d) (x :: l).
Proof.
  induction l as [|y l IH]; [done|]. simpl.
  destruct (decide (InMemoryLogRepository.by_date x y)) as [Hxy|Hxy]; [done|].
  rewrite (filter_cons _ y (InMemoryLogRepository.insert_by_date x l)), IH.
  rewrite (filter_cons _ x (y :: l)), (filter_cons _ y l), (filter_cons _ x l).
  unfold InMemoryLogRepository.by_date in Hxy.
  destruct (decide (LogEntry.date y = d)), (decide (LogEntry.date x = d));
    try done.
  lia.
Qed.

Lemma sorted_by_date_stable d l :
  filter (λ log, LogEntry.date log = d)
    (InMemoryLogRepository.sorted_by_date l) =
  filter (λ log, LogEntry.date log = d) l.
Proof.
  induction l as [|x l IH]; [done|]. simpl.
  rewrite insert_by_date_stable, !filter_cons, IH. done.
Qed.

Lemma list_for_habit_as_filter habit_id start end_ (s : list LogEntry.t) :
  InMemoryLogRepository.list_for_habit habit_id start end_ s =
  InMemoryLogRepository.sorted_by_date
    (filter (own_entry habit_id start end_) s).
Proof.
  unfold InMemoryLogRepository.list_for_habit. f_equal.
  change (_filter_logs_by_date
            (filter (λ log, LogEntry.habit_id log = habit_id) s) start end_ =
          filter (own_entry habit_id start end_) s).
  rewrite filter_logs_as_filter, list_filter_filter.
  apply list_filter_iff. intros log. unfold own_entry. tauto.
Qed.

(** X14.  [list_for_habit] returns the stored entries of the habit whose
    date is in the window, each as often as it is stored, in ascending
    order of date, and those of one date in the order they were
    added. *)
Theorem list_for_habit_sorted_stable habit_id start end_
    (s : list LogEntry.t) :
  let logs := InMemoryLogRepository.list_for_habit habit_id start end_ s in
  logs ≡ₚ filter (own_entry habit_id start end_) s ∧
  (∀ log, log ∈ logs ↔ log ∈ s ∧ own_entry habit_id start end_ log) ∧
  StronglySorted (λ a b, (LogEntry.date a <= LogEntry.date b)%Z) logs ∧
  (∀ d, filter (λ log, LogEntry.date log = d) logs =
        filter (λ log, LogEntry.date log = d)
          (filter (own_entry habit_id start end_) s)).
Proof.
  simpl. rewrite list_for_habit_as_filter.
  split; [apply sorted_by_date_Permutation|].
  split.
  - intros log. rewrite sorted_by_date_Permutation, list_elem_of_filter. tauto.
  - split; [apply sorted_by_date_sorted|].
    intros d. apply sorted_by_date_stable.
Qed.

(** ** The habit service: further properties *)

Lemma filter_all {A} (P : A → Prop) `{!∀ x, Decision (P x)} (l : list A) :
  (∀ x, x ∈ l → P x) → filter P l = l.
Proof.
  induction l as [|x l IH]; intros HP; [done|].
  rewrite filter_cons_True by (apply HP; left).
  f_equal. apply IH. intros y Hy. apply HP. by right.
Qed.

Lemma list_for_habit_filtered habit_id start end_ (s : list LogEntry.t) :
  _filter_logs_by_date
    (InMemoryLogRepository.list_for_habit habit_id start end_ s) start end_ ≡ₚ
  _filter_logs_by_date
    (filter (λ log, LogEntry.habit_id log = habit_id) s) start end_.
Proof.
  rewrite list_for_habit_as_filter, !filter_logs_as_filter.
  rewrite filter_all.
  - rewrite sorted_by_date_Permutation, list_filter_filter.
    match goal with |- ?l ≡ₚ ?r => assert (l = r) as ->; [|done] end.
    apply list_filter_iff. intros log. unfold own_entry. tauto.
  - intros log. rewrite sorted_by_date_Permutation, list_elem_of_filter.
    by intros [[_ ?] _].
Qed.

Lemma insert_by_date_first x l :
  Forall (InMemoryLogRepository.by_date x) l →
  InMemoryLogRepository.insert_by_date x l = x :: l.
Proof.
  destruct 1 as [|y l Hxy _]; [done|]. simpl. by rewrite decide_True.
Qed.

(** Sorting by date and keeping the entries of a kind commute. *)
Lemma insert_by_date_filter (P : LogEntry.t → Prop)
    `{!∀ log, Decision (P log)} x l :
  StronglySorted InMemoryLogRepository.by_date l →
  filter P (InMemoryLogRepository.insert_by_date x l) =
  if decide (P x)
  then InMemoryLogRepository.insert_by_date x (filter P l)
  else filter P l.
Proof.
  induction 1 as [|y l Hsort IH Hall].
  - simpl. rewrite filter_cons, filter_nil. by destruct (decide (P x)).
  - simpl.
    destruct (decide (InMemoryLogRepository.by_date x y)) as [Hxy|Hxy].
    + rewrite (filter_cons _ x). destruct (decide (P x)); [|done].
      symmetry. apply insert_by_date_first.
      apply Forall_forall. intros z Hz.
      apply list_elem_of_filter in Hz as [_ Hz].
      apply elem_of_cons in Hz as [->|Hz]; [done|].
      rewrite Forall_forall in Hall. specialize (Hall z Hz).
      unfold InMemoryLogRepository.by_date in *. lia.
    + rewrite (filter_cons _ y), IH, (filter_cons _ y l).
      destruct (decide (P y)), (decide (P x)); try done.
      simpl. by rewrite decide_False.
Qed.

Lemma sorted_by_date_filter (P : LogEntry.t → Prop)
    `{!∀ log, Decision (P log)} l :
  filter P (InMemoryLogRepository.sorted_by_date l) =
  InMemoryLogRepository.sorted_by_date (filter P l).
Proof.
  induction l as [|x l IH]; [done|]. simpl.
  rewrite insert_by_date_filter by apply sorted_by_date_sorted.
  rewrite filter_cons, IH. by destruct (decide (P x)).
Qed.

(** What [list_for_habit] returns for a window is what the window
    keeps of the habit's entries in order of date. *)
Lemma list_for_habit_window habit_id start end_ (s : list LogEntry.t) :
  _filter_logs_by_date
    (InMemoryLogRepository.list_for_habit habit_id start end_ s) start end_ =
  _filter_logs_by_date
    (InMemoryLogRepository.sorted_by_date
       (filter (λ log, LogEntry.habit_id log = habit_id) s)) start end_.
Proof.
  rewrite list_for_habit_as_filter, !filter_logs_as_filter.
  rewrite !sorted_by_date_filter. f_equal.
  rewrite !list_filter_filter.
  apply list_filter_iff. intros log. unfold own_entry. tauto.
Qed.

(** X15.  [get_statistics] on an existing habit returns, under the
    built-in calculators and without changing either repository, the
    statistics of the habit's own entries; entries of other habits have
    no part in it.  For a boolean habit the result is the one of the
    boolean calculator on the entries stored for the habit, in any
    order.  For a numeric habit it is the result of the numeric
    calculator on these entries in ascending order of date, those of
    one date in the order they were recorded: this is the order in
    which the values are summed for the average; every other field is
    the one the stored order gives. *)
Theorem get_statistics_of_own_entries
    (s : store) today habit_id habit start end_ :
  habit_repo s !! habit_id = Some habit →
  let own := filter (λ log, LogEntry.habit_id log = habit_id) (log_repo s) in
  ∃ r,
    get_statistics StatisticsCalculatorFactory._calculators
      today habit_id start end_ s = (Ok (habit_id, r), s) ∧
    match Habit.type habit with
    | BOOLEAN =>
        r = BooleanStatisticsCalculator.calculate today habit own start end_
    | NUMERIC =>
        r = NumericStatisticsCalculator.calculate today habit
              (InMemoryLogRepository.sorted_by_date own) start end_ ∧
        same_counts r
          (NumericStatisticsCalculator.calculate today habit own start end_)
    end.
Proof.
  intros Hlook own.
  pose proof (calculate_same_entries today habit _ _ start end_
                (list_for_habit_filtered habit_id start end_ (log_repo s)))
    as [Hb Hn].
  unfold get_statistics. simpl. unfold InMemoryHabitRepository.get.
  rewrite Hlook. unfold StatisticsCalculatorFactory.get_calculator.
  destruct (Habit.type habit); simpl; eexists; (split; [done|]); [done|].
  split; [|done].
  unfold NumericStatisticsCalculator.calculate.
  by rewrite list_for_habit_window.
Qed.

(** X16.  [record_log] on an existing habit returns the new entry and
    appends it to the log repository, whether or not the date already
    has an entry, and leaves the habits alone.  A later [get_logs] of
    the habit over a window that holds the date returns one entry more
    than before, the new one among them; the logs of every other habit
    are as before. *)
Theorem record_log_then_get_logs
    (s : store) uuid now habit_id habit date_ value :
  habit_repo s !! habit_id = Some habit →
  let log := LogEntry.mk uuid habit_id date_ value now in
  let s' := mkHabitService (habit_repo s) (log_repo s ++ [log]) in
  record_log uuid now habit_id date_ value s = (Ok log, s') ∧
  (∀ start end_, in_window start end_ date_ →
     ∃ before after,
       get_logs habit_id start end_ s = (Ok before, s) ∧
       get_logs habit_id start end_ s' = (Ok after, s') ∧
       log ∈ after ∧ length after = S (length before)) ∧
  (∀ other start end_, other ≠ habit_id →
     (get_logs other start end_ s').1 = (get_logs other start end_ s).1).
Proof.
  intros Hlook log s'. split; [|split].
  - unfold record_log. simpl. unfold InMemoryHabitRepository.get.
    by rewrite Hlook.
  - intros start end_ Hwin. do 2 eexists.
    unfold get_logs. simpl. unfold InMemoryHabitRepository.get.
    rewrite Hlook. split; [done|]. split; [done|].
    rewrite !list_for_habit_as_filter, filter_app.
    rewrite (filter_cons_True _ log []) by done.
    split.
    + rewrite sorted_by_date_Permutation. apply elem_of_app. right. left.
    + rewrite !sorted_by_date_Permutation, length_app. simpl. lia.
  - intros other start end_ Hne.
    unfold get_logs. simpl. unfold InMemoryHabitRepository.get.
    destruct (habit_repo s !! other); [|done]. simpl. f_equal.
    rewrite !list_for_habit_as_filter, filter_app.
    rewrite (filter_cons_False _ log []); [by rewrite app_nil_r|].
    unfold own_entry. simpl. intros [? _]. congruence.
Qed.

(** X17.  [add_subhabit] under an existing parent, for a sub-habit with
    an id of its own, stores the sub-habit with [parent_id] set to the
    parent, appends its id to the end of the parent's [subhabit_ids],
    and leaves every other habit and the logs as they were. *)
Theorem add_subhabit_links (s : store) parent_id parent subhabit :
  keyed_by_id (habit_repo s) →
  habit_repo s !! parent_id = Some parent →
  Habit.id subhabit ≠ parent_id →
  let s' := exec (add_subhabit parent_id subhabit) s in
  add_subhabit parent_id subhabit s = (Ok (), s') ∧
  get_habit (Habit.id subhabit) s' =
    Some (Habit.set_parent_id (Some parent_id) subhabit) ∧
  get_habit parent_id s' =
    Some (Habit.set_subhabit_ids
            (Habit.subhabit_ids parent ++ [Habit.id subhabit]) parent) ∧
  (∀ k, k ≠ parent_id → k ≠ Habit.id subhabit →
        get_habit k s' = get_habit k s) ∧
  log_repo s' = log_repo s.
Proof.
  intros Hkeys Hlook Hne s'. unfold s', exec.
  rewrite (add_subhabit_in_memory s parent_id parent subhabit Hkeys Hlook).
  unfold get_habit. simpl. unfold InMemoryHabitRepository.get.
  split; [done|]. split.
  - by rewrite lookup_insert_ne, lookup_insert_eq.
  - split; [apply lookup_insert_eq|]. split; [|done].
    intros k Hk1 Hk2. by rewrite !lookup_insert_ne.
Qed.

Lemma apply_update_idempotent update habit :
  apply_update update (apply_update update habit) = apply_update update habit.
Proof. destruct update as [[n|] [d|] [c|] [g|]]; by destruct habit. Qed.

(** X18.  An update cannot clear a field: a description, category or
    goal that is set stays set, since a null in the request means
    "leave as it is".  The request with no field leaves the store as it
    is, and sending a request twice stores what sending it once
    stores. *)
Theorem update_never_clears (s : store) habit_id habit update :
  keyed_by_id (habit_repo s) →
  habit_repo s !! habit_id = Some habit →
  let new := apply_update update habit in
  (is_Some (Habit.description habit) → is_Some (Habit.description new)) ∧
  (is_Some (Habit.category habit) → is_Some (Habit.category new)) ∧
  (is_Some (Habit.goal habit) → is_Some (Habit.goal new)) ∧
  update_habit habit_id empty_update s = (Ok habit, s) ∧
  update_habit habit_id update (exec (update_habit habit_id update) s) =
    (Ok new, exec (update_habit habit_id update) s).
Proof.
  intros Hkeys Hlook new.
  split; [|split; [|split; [|split]]].
  - unfold new. destruct update as [[n|] [d|] [c|] [g|]], habit; simpl; eauto.
  - unfold new. destruct update as [[n|] [d|] [c|] [g|]], habit; simpl; eauto.
  - unfold new. destruct update as [[n|] [d|] [c|] [g|]], habit; simpl; eauto.
  - rewrite (update_habit_in_memory s habit_id habit) by done.
    change (apply_update empty_update habit) with habit.
    rewrite insert_id by done. by destruct s.
  - unfold exec.
    rewrite (update_habit_in_memory s habit_id habit) by done. simpl.
    assert (keyed_by_id
              (<[habit_id := apply_update update habit]> (habit_repo s)))
      as Hkeys'.
    { pose proof (apply_update_updated_by update habit)
        as (_ & _ & _ & _ & Hid & _).
      replace habit_id with (Habit.id (apply_update update habit))
        by (rewrite Hid; by apply (Hkeys habit_id)).
      by apply keyed_by_id_insert. }
    rewrite (update_habit_in_memory _ habit_id (apply_update update habit));
      [|done|apply lookup_insert_eq].
    simpl. by rewrite apply_update_idempotent, insert_insert_eq.
Qed.

(** X19.  A cascading delete only ever removes habits: whatever its
    outcome, the log repository is untouched, so the entries of deleted
    habits stay stored, no habit is added or changed, and the outcome is
    a normal return, the not-found error or [RecursionError]. *)
Theorem delete_habit_only_removes_habits (s : store) fuel habit_id :
  let r := (delete_habit fuel habit_id s).1 in
  let s' := (delete_habit fuel habit_id s).2 in
  log_repo s' = log_repo s ∧
  (∀ k h, habit_repo s' !! k = Some h → habit_repo s !! k = Some h) ∧
  (r = Ok () ∨ r = Raise not_found ∨ r = Raise RecursionError).
Proof.
  destruct (delete_habit fuel habit_id s) as [r s'] eqn:Hrun.
  cbn [fst snd].
  pose proof (delete_habit_shrinks _ _ _ _ _ Hrun) as Hshrinks.
  split; [apply Hshrinks|]. split.
  - intros k h. by apply shrinks_present.
  - destruct r as [[]|e]; [by left|right].
    apply delete_habit_raises in Hrun as [->| ->]; [by left|by right].
Qed.

(** X20.  In every store reached through create, add-subhabit, update
    and delete requests, each habit is filed under its own id. *)
Theorem api_stores_keyed_by_id (s : store) k h :
  api_reachable s → habit_repo s !! k = Some h → Habit.id h = k.
Proof.
  intros Hreach Hlook. by apply (api_reachable_keyed_by_id s Hreach k h).
Qed.

(** X21.  Whatever the repositories, every endpoint addressed at a habit
    id that is not stored answers 404 with the message of the service
    and leaves both repositories as they were. *)
Theorem api_not_found {R L} `{!HabitRepository R, !LogRepository L}
    (s : HabitService R L) habit_id :
  habit_get habit_id (habit_repo s) = None →
  controllers.get_habit habit_id s = http_404 "Habit not found" s ∧
  (∀ payload,
     controllers.update_habit habit_id payload s =
     http_404 "Habit not found" s) ∧
  (∀ fuel,
     controllers.delete_habit (S fuel) habit_id s =
     http_404 "Habit not found" s) ∧
  (∀ uuid now payload,
     controllers.add_subhabit uuid now habit_id payload s =
     http_404 "Parent habit not found" s) ∧
  (∀ uuid now date_ value,
     controllers.record_log uuid now habit_id date_ value s =
     http_404 "Habit not found" s) ∧
  (∀ start end_,
     controllers.get_logs habit_id start end_ s =
     http_404 "Habit not found" s) ∧
  (∀ table today start end_,
     controllers.get_stats table today habit_id start end_ s =
     http_404 "Habit not found" s).
Proof.
  intros Habsent.
  unfold http_404, controllers.get_habit, controllers.update_habit,
    controllers.delete_habit, controllers.add_subhabit,
    controllers.record_log, controllers.get_logs, controllers.get_stats,
    controllers.except_ValueError, get_habit, update_habit, add_subhabit,
    record_log, get_logs, get_statistics, mbind, M_bind.
  simpl. rewrite Habsent. done.
Qed.

(** ** Cascading delete on trees and on cycles *)

Lemma holds_node m habit children :
  holds m (Node habit children) ↔
  m !! Habit.id habit = Some habit ∧
  Habit.subhabit_ids habit = root_id <$> children ∧
  Forall (holds m) children.
Proof.
  cbn [holds].
  assert ((fix all (ts : list tree) : Prop :=
             match ts with
             | [] => True
             | t' :: ts' => holds m t' ∧ all ts'
             end) children ↔ Forall (holds m) children) as ->; [|done].
  induction children as [|c cs IH]; [by split|].
  rewrite Forall_cons, IH. done.
Qed.

Lemma height_child c (children : list tree) :
  c ∈ children → height c ≤ foldr max 0 (height <$> children).
Proof.
  induction children as [|c' cs IH]; intros Hin; [by inversion Hin|].
  rewrite fmap_cons. cbn [foldr].
  apply elem_of_cons in Hin as [->|Hin]; [lia|].
  specialize (IH Hin). lia.
Qed.

Lemma tree_ids_child c (children : list tree) k :
  c ∈ children → k ∈ tree_ids c → k ∈ mjoin (tree_ids <$> children).
Proof.
  intros Hc Hk. apply list_elem_of_join. exists (tree_ids c).
  split; [done|]. apply list_elem_of_fmap. by exists c.
Qed.

(** A tree is held by every store that agrees on its ids. *)
Lemma holds_ext n t (m m' : gmap string Habit.t) :
  height t ≤ n →
  (∀ k, k ∈ tree_ids t → m' !! k = m !! k) →
  holds m t → holds m' t.
Proof.
  revert t. induction n as [|n IH]; intros [habit children] Hheight Hsame.
  - simpl in Hheight. lia.
  - rewrite !holds_node. intros (Hlook & Hsubs & Hchildren).
    split; [|split; [done|]].
    + rewrite Hsame; [done|]. left.
    + apply Forall_forall. intros c Hc.
      apply IH.
      * pose proof (height_child c children Hc). simpl in Hheight. lia.
      * intros k Hk. apply Hsame. right. by eapply tree_ids_child.
      * by apply (proj1 (Forall_forall _ _) Hchildren).
Qed.

Lemma removed_nil (s : store) : removed [] s s.
Proof.
  split; [done|]. intros k. rewrite decide_False; [done|]. by inversion 1.
Qed.

(** X22.  On a store that holds a tree of habits with pairwise distinct
    ids, deleting the root within a recursion limit of at least the
    height of the tree returns normally and removes exactly the habits
    of the tree; every other habit and all log entries stay. *)
Theorem cascading_delete_removes_tree fuel t (s : store) :
  holds (habit_repo s) t →
  NoDup (tree_ids t) →
  height t ≤ fuel →
  ∃ s', delete_habit fuel (root_id t) s = (Ok (), s') ∧
        removed (tree_ids t) s s'.
Proof.
  revert t s. induction fuel as [|fuel IH];
    intros [habit children] s Hholds Hnd Hheight.
  { simpl in Hheight. lia. }
  apply holds_node in Hholds as (Hlook & Hsubs & Hchildren).
  cbn [tree_ids] in Hnd. apply NoDup_cons in Hnd as [Hroot Hnd].
  assert (∀ cs (s0 : store),
            Forall (holds (habit_repo s0)) cs →
            Forall (λ c, height c ≤ fuel) cs →
            NoDup (mjoin (tree_ids <$> cs)) →
            ∃ s', for_each (delete_habit fuel) (root_id <$> cs) s0 = (Ok (), s') ∧
                  removed (mjoin (tree_ids <$> cs)) s0 s') as Hforest.
  { clear -IH. induction cs as [|c cs IHcs]; intros s0 Hh Hht Hnd.
    - exists s0. split; [done|apply removed_nil].
    - apply Forall_cons in Hh as [Hc Hh].
      apply Forall_cons in Hht as [Hhc Hht].
      rewrite fmap_cons in Hnd. cbn [mjoin list_join] in Hnd.
      apply NoDup_app in Hnd as (Hndc & Hdisj & Hndcs).
      destruct (IH c s0 Hc Hndc Hhc) as (s1 & Hrun1 & Hlog1 & Hk1).
      destruct (IHcs s1) as (s' & Hrun & Hlog & Hk); [|done|done|].
      + apply Forall_forall. intros c' Hc'.
        apply (holds_ext (height c') c' (habit_repo s0)); [done| |].
        * intros k Hkc'. rewrite Hk1, decide_False; [done|].
          intros Hkc. apply (Hdisj k Hkc). by eapply tree_ids_child.
        * by apply (proj1 (Forall_forall _ _) Hh).
      + exists s'. split.
        * rewrite fmap_cons. cbn [for_each]. unfold mbind, M_bind.
          by rewrite Hrun1.
        * split; [congruence|]. intros k.
          rewrite Hk, Hk1, fmap_cons. cbn [mjoin list_join].
          repeat case_decide; try done; exfalso;
            rewrite elem_of_app in *; tauto. }
  destruct (Hforest children s) as (s1 & Hrun & Hlog & Hk); [done| |done|].
  { apply Forall_forall. intros c Hc.
    pose proof (height_child c children Hc). simpl in Hheight. lia. }
  eexists. split.
  - cbn [root_id]. by rewrite delete_habit_unfold, Hlook, Hsubs, Hrun.
  - split; [done|]. intros k. cbn [habit_repo tree_ids].
    destruct (decide (k = Habit.id habit)) as [->|Hne].
    + rewrite lookup_delete_eq, decide_True; [done|left].
    + rewrite lookup_delete_ne, Hk by done.
      repeat case_decide; try done; exfalso.
      * match goal with H : _ ∉ _ :: _ |- _ => apply H end. by right.
      * match goal with H : _ ∈ _ :: _ |- _ =>
          apply elem_of_cons in H as [?|?] end; done.
Qed.

Lemma delete_habit_on_cycle (s : store) ids fuel c :
  first_child_closed (habit_repo s) ids → c ∈ ids →
  delete_habit fuel c s = (Raise RecursionError, s).
Proof.
  intros Hclosed. revert c. induction fuel as [|fuel IH]; intros c Hc; [done|].
  destruct (Hclosed c Hc) as (habit & y & rest & Hlook & Hsubs & Hy).
  rewrite delete_habit_unfold, Hlook, Hsubs.
  cbn [for_each]. unfold mbind, M_bind. by rewrite (IH y Hy).
Qed.

(** X23.  There is no guard against cycles: when following first
    sub-habits from a habit never leaves a set of stored habits, every
    delete of it, whatever the recursion limit, ends in
    [RecursionError] and removes nothing, and the endpoint does not turn
    this into a 404. *)
Theorem delete_on_cycle_raises_recursion_error (s : store) ids fuel c :
  first_child_closed (habit_repo s) ids → c ∈ ids →
  delete_habit fuel c s = (Raise RecursionError, s) ∧
  controllers.delete_habit fuel c s = (Raise RecursionError, s).
Proof.
  intros Hclosed Hc.
  pose proof (delete_habit_on_cycle s ids fuel c Hclosed Hc) as Hrun.
  split; [done|].
  unfold controllers.delete_habit, controllers.except_ValueError.
  by rewrite Hrun.
Qed.

(** X24.  A cycle can be made through the service: [add_subhabit] with a
    sub-habit that carries the id of its parent returns normally on the
    in-memory repository, stores no new habit and leaves the parent
    listing itself, after which a childless parent can no longer be
    deleted.  On the SQLite repository the same call raises
    [IntegrityError] and changes nothing. *)
Theorem add_subhabit_under_own_id (s : store) parent_id parent subhabit :
  keyed_by_id (habit_repo s) →
  habit_repo s !! parent_id = Some parent →
  Habit.id subhabit = parent_id →
  let parent' :=
    Habit.set_subhabit_ids (Habit.subhabit_ids parent ++ [parent_id]) parent in
  let s' := mkHabitService (<[parent_id := parent']> (habit_repo s))
              (log_repo s) in
  add_subhabit parent_id subhabit s = (Ok (), s') ∧
  (Habit.subhabit_ids parent = [] →
   ∀ fuel, delete_habit fuel parent_id s' = (Raise RecursionError, s')) ∧
  @add_subhabit _ _ SQLiteHabitRepository.inst parent_id subhabit s =
    (Raise IntegrityError, s).
Proof.
  intros Hkeys Hlook Hid parent' s'. split; [|split].
  - rewrite (add_subhabit_in_memory s parent_id parent subhabit Hkeys Hlook).
    rewrite Hid. fold parent'. unfold s'.
    by rewrite !insert_insert_eq.
  - intros Hleaf fuel.
    apply (delete_habit_on_cycle s' {[ parent_id ]}); [|by apply elem_of_singleton].
    intros c Hc. apply elem_of_singleton in Hc as ->.
    exists parent', parent_id, []. split; [apply lookup_insert_eq|].
    split; [|by apply elem_of_singleton].
    unfold parent'. simpl. by rewrite Hleaf.
  - unfold add_subhabit. simpl. unfold SQLiteHabitRepository.get.
    rewrite Hlook. unfold mbind, M_bind, on_habits. simpl.
    unfold SQLiteHabitRepository.add, SQLiteHabitRepository.assign.
    simpl. rewrite Hid, Hlook. by destruct s.
Qed.

(** ** The further properties at concrete inputs *)

(** X3 at the sets [{5}] and [{5, 6}] with today 6. *)
Lemma streaks_monotone_witness :
  ({[ 5%Z ]} : gset Z) ⊆ {[ 5%Z; 6%Z ]} ∧
  (_calculate_streaks 6 {[ 5%Z ]}).1 ≤ (_calculate_streaks 6 {[ 5%Z; 6%Z ]}).1 ∧
  (_calculate_streaks 6 {[ 5%Z ]}).2 ≤ (_calculate_streaks 6 {[ 5%Z; 6%Z ]}).2.
Proof.
  assert (({[ 5%Z ]} : gset Z) ⊆ {[ 5%Z; 6%Z ]}) as Hsub by by_decision.
  split; [exact Hsub|]. exact (streaks_monotone 6 _ _ Hsub).
Defined.

(** X6 at the three reading entries and a window that starts tomorrow. *)
Lemma statistics_of_empty_window_witness :
  (∀ log, log ∈ reading_logs →
          ¬ in_window (Some (historical_today + 1)%Z) None (LogEntry.date log)) ∧
  NumericStatisticsCalculator.calculate historical_today reading_habit
    reading_logs (Some (historical_today + 1)%Z) None = no_statistics.
Proof.
  assert (∀ log, log ∈ reading_logs →
            ¬ in_window (Some (historical_today + 1)%Z) None
                (LogEntry.date log)) as Hout.
  { apply Forall_forall. by_decision. }
  split; [exact Hout|].
  exact (proj2 (statistics_of_empty_window historical_today reading_habit
                  reading_logs _ _ Hout)).
Defined.

(** X7 at the reading entries and the same entries with the first two
    exchanged. *)
Lemma statistics_order_independent_witness :
  reading_logs ≡ₚ reading_logs_swapped ∧
  same_counts
    (NumericStatisticsCalculator.calculate historical_today reading_habit
       reading_logs None None)
    (NumericStatisticsCalculator.calculate historical_today reading_habit
       reading_logs_swapped None None).
Proof.
  assert (reading_logs ≡ₚ reading_logs_swapped) as Hperm
    by apply Permutation_swap.
  split; [exact Hperm|].
  exact (proj1 (proj2 (statistics_order_independent historical_today
                         reading_habit reading_logs reading_logs_swapped
                         None None Hperm))).
Defined.

(** X9 at the goals 10 and 12 of the reading habit. *)
Lemma raising_goal_counts_less_witness :
  (10 <= 12)%Q ∧
  fewer_completions
    (NumericStatisticsCalculator.calculate historical_today
       (Habit.set_goal (Some 12%Q) reading_habit) reading_logs None None)
    (NumericStatisticsCalculator.calculate historical_today
       (Habit.set_goal (Some 10%Q) reading_habit) reading_logs None None).
Proof.
  assert (10 <= 12)%Q as Hle by (unfold Qle; simpl; lia).
  split; [exact Hle|].
  exact (proj1 (raising_goal_counts_less historical_today reading_habit
                  10 12 reading_logs None None Hle)).
Defined.

(** X10 at the windows "yesterday only" and "from two days ago on". *)
Lemma narrowing_window_counts_less_witness :
  let narrow := (Some (historical_today - 1)%Z, Some (historical_today - 1)%Z) in
  let wide := (Some (historical_today - 2)%Z, @None Z) in
  (∀ d, in_window narrow.1 narrow.2 d → in_window wide.1 wide.2 d) ∧
  total_days_tracked
    (NumericStatisticsCalculator.calculate historical_today reading_habit
       reading_logs narrow.1 narrow.2) ≤
  total_days_tracked
    (NumericStatisticsCalculator.calculate historical_today reading_habit
       reading_logs wide.1 wide.2).
Proof.
  intros narrow wide.
  assert (∀ d, in_window narrow.1 narrow.2 d → in_window wide.1 wide.2 d)
    as Hnarrow.
  { intros d [H1 H2]. simpl in *. split; [unfold historical_today in *; lia|done]. }
  split; [exact Hnarrow|].
  destruct (narrowing_window_counts_less historical_today reading_habit
              reading_logs _ _ _ _ Hnarrow) as [_ [Hdays _]].
  exact Hdays.
Defined.

(** X15 at the reading habit and its three recorded entries. *)
Lemma get_statistics_of_own_entries_witness :
  habit_repo reading_store !! "h" = Some reading_habit ∧
  let own :=
    filter (λ log, LogEntry.habit_id log = "h") (log_repo reading_store) in
  ∃ r,
    get_statistics StatisticsCalculatorFactory._calculators
      historical_today "h" None None reading_store =
      (Ok ("h", r), reading_store) ∧
    r = NumericStatisticsCalculator.calculate historical_today reading_habit
          (InMemoryLogRepository.sorted_by_date own) None None ∧
    same_counts r
      (NumericStatisticsCalculator.calculate historical_today reading_habit
         own None None).
Proof.
  assert (habit_repo reading_store !! "h" = Some reading_habit) as Hlook
    by (vm_compute; reflexivity).
  split; [exact Hlook|].
  exact (get_statistics_of_own_entries reading_store historical_today "h"
           reading_habit None None Hlook).
Defined.

(** X16 at the parent of [family_store]. *)
Lemma record_log_then_get_logs_witness :
  habit_repo family_store !! "p" = Some family_parent ∧
  let log := LogEntry.mk "l" "p" 7 (Some 1%Q) 0 in
  record_log "l" 0 "p" 7 (Some 1%Q) family_store =
    (Ok log,
     mkHabitService (habit_repo family_store) (log_repo family_store ++ [log])).
Proof.
  assert (habit_repo family_store !! "p" = Some family_parent) as Hlook
    by (vm_compute; reflexivity).
  split; [exact Hlook|].
  exact (proj1 (record_log_then_get_logs family_store "l" 0 "p" family_parent
                  7 (Some 1%Q) Hlook)).
Defined.

(** X17 at the childless parent and a child with id [c]. *)
Lemma add_subhabit_links_witness :
  keyed_by_id (habit_repo parent_store) ∧
  habit_repo parent_store !! "p" = Some loop_parent ∧
  Habit.id family_child ≠ "p" ∧
  get_habit "p" (exec (add_subhabit "p" family_child) parent_store) =
    Some (Habit.set_subhabit_ids
            (Habit.subhabit_ids loop_parent ++ [Habit.id family_child])
            loop_parent).
Proof.
  assert (keyed_by_id (habit_repo parent_store)) as Hkeys by by_decision.
  assert (habit_repo parent_store !! "p" = Some loop_parent) as Hlook
    by (vm_compute; reflexivity).
  assert (Habit.id family_child ≠ "p") as Hne by by_decision.
  split; [exact Hkeys|]. split; [exact Hlook|]. split; [exact Hne|].
  destruct (add_subhabit_links parent_store "p" loop_parent family_child
              Hkeys Hlook Hne) as (_ & _ & Hparent & _).
  exact Hparent.
Defined.

(** X18 at the parent of [family_store]. *)
Lemma update_never_clears_witness :
  keyed_by_id (habit_repo family_store) ∧
  habit_repo family_store !! "p" = Some family_parent ∧
  update_habit "p" empty_update family_store = (Ok family_parent, family_store).
Proof.
  assert (keyed_by_id (habit_repo family_store)) as Hkeys by by_decision.
  assert (habit_repo family_store !! "p" = Some family_parent) as Hlook
    by (vm_compute; reflexivity).
  split; [exact Hkeys|]. split; [exact Hlook|].
  destruct (update_never_clears family_store "p" family_parent rename
              Hkeys Hlook) as (_ & _ & _ & Hempty & _).
  exact Hempty.
Defined.

(** X20 at the parent of [family_store]. *)
Lemma api_stores_keyed_by_id_witness :
  api_reachable family_store ∧
  habit_repo family_store !! "p" = Some family_parent ∧
  Habit.id family_parent = "p".
Proof.
  assert (habit_repo family_store !! "p" = Some family_parent) as Hlook
    by (vm_compute; reflexivity).
  split; [exact family_store_reachable|]. split; [exact Hlook|].
  exact (api_stores_keyed_by_id family_store "p" family_parent
           family_store_reachable Hlook).
Defined.

(** X21 at the empty store. *)
Lemma api_not_found_witness :
  habit_get "nonexistent-id" (habit_repo empty_store) = None ∧
  controllers.get_habit "nonexistent-id" empty_store =
    http_404 "Habit not found" empty_store.
Proof.
  assert (habit_get "nonexistent-id" (habit_repo empty_store) = None)
    as Habsent by reflexivity.
  split; [exact Habsent|].
  exact (proj1 (api_not_found empty_store "nonexistent-id" Habsent)).
Defined.

(** X22 at the parent and leaf of [family_store]. *)
Lemma cascading_delete_removes_tree_witness :
  holds (habit_repo family_store) family_tree ∧
  NoDup (tree_ids family_tree) ∧
  height family_tree ≤ 2 ∧
  ∃ s', delete_habit 2 (root_id family_tree) family_store = (Ok (), s') ∧
        removed (tree_ids family_tree) family_store s'.
Proof.
  assert (holds (habit_repo family_store) family_tree) as Hholds.
  { cbn [holds family_tree]. repeat split; vm_compute; reflexivity. }
  assert (NoDup (tree_ids family_tree)) as Hnd by by_decision.
  assert (height family_tree ≤ 2) as Hheight by (vm_compute; lia).
  split; [exact Hholds|]. split; [exact Hnd|]. split; [exact Hheight|].
  exact (cascading_delete_removes_tree 2 family_tree family_store
           Hholds Hnd Hheight).
Defined.

Lemma loop_store_closed : first_child_closed (habit_repo loop_store) {[ "p" ]}.
Proof.
  intros c Hc. apply elem_of_singleton in Hc as ->.
  exists (Habit.set_subhabit_ids ["p"] loop_parent), "p", [].
  split; [vm_compute; reflexivity|]. split; [reflexivity|].
  by apply elem_of_singleton.
Defined.

(** X23 at the parent that lists itself. *)
Lemma delete_on_cycle_raises_recursion_error_witness :
  first_child_closed (habit_repo loop_store) {[ "p" ]} ∧
  "p" ∈ ({[ "p" ]} : gset string) ∧
  delete_habit 1000 "p" loop_store = (Raise RecursionError, loop_store).
Proof.
  assert ("p" ∈ ({[ "p" ]} : gset string)) as Hin by by_decision.
  split; [exact loop_store_closed|]. split; [exact Hin|].
  exact (proj1 (delete_on_cycle_raises_recursion_error loop_store {[ "p" ]}
                  1000 "p" loop_store_closed Hin)).
Defined.

(** X24 at the childless parent and a sub-habit with the same id. *)
Lemma add_subhabit_under_own_id_witness :
  keyed_by_id (habit_repo parent_store) ∧
  habit_repo parent_store !! "p" = Some loop_parent ∧
  Habit.id loop_child = "p" ∧
  @add_subhabit _ _ SQLiteHabitRepository.inst "p" loop_child parent_store =
    (Raise IntegrityError, parent_store).
Proof.
  assert (keyed_by_id (habit_repo parent_store)) as Hkeys by by_decision.
  assert (habit_repo parent_store !! "p" = Some loop_parent) as Hlook
    by (vm_compute; reflexivity).
  split; [exact Hkeys|]. split; [exact Hlook|]. split; [reflexivity|].
  destruct (add_subhabit_under_own_id parent_store "p" loop_parent loop_child
              Hkeys Hlook eq_refl) as (_ & _ & Hsqlite).
  exact Hsqlite.
Defined.

(** X11 at the reading habit, with a table that lacks the numeric
    calculator. *)
Lemma factory_register_then_get_witness :
  habit_repo reading_store !! "h" = Some reading_habit ∧
  boolean_only (Habit.type reading_habit) = None ∧
  get_statistics boolean_only historical_today "h" None None reading_store =
    (Raise (ValueError "No calculator found for habit type: HabitType.NUMERIC"),
     reading_store) ∧
  controllers.get_stats boolean_only historical_today "h" None None
    reading_store =
    http_404 "No calculator found for habit type: HabitType.NUMERIC"
      reading_store.
Proof.
  assert (habit_repo reading_store !! "h" = Some reading_habit) as Hlook
    by (vm_compute; reflexivity).
  split; [exact Hlook|]. split; [reflexivity|].
  destruct (factory_register_then_get boolean_only NUMERIC
              NumericStatisticsCalculator.calculate)
    as (_ & _ & _ & _ & _ & _ & _ & Hmissing).
  exact (Hmissing reading_store historical_today "h" reading_habit None None
           Hlook eq_refl).
Defined.
